(** * gatekeeper-api: the token and account-security state machine

    A shallow embedding of the user model (the mongoose schema methods
    [incLoginAttempts], [resetLoginAttempts], [isLocked], [addRefreshToken],
    [removeRefreshToken], [clearAllRefreshTokens], [cleanupExpiredTokens],
    [updateLastLogin], [generateAccessToken], [generateRefreshToken]) and of
    the [AuthController] handlers [register], [login], [refreshToken],
    [logout] and [logoutAll].

    Conventions of the embedding.
    - Time is a [Z]: milliseconds since the epoch, as [Date.now()] and
      [Date.prototype.valueOf].  A handler or method is handed the reading
      [now] of the clock at which it runs.
    - The [users] collection is a finite map from [_id] to the stored fields.
      A mongoose document ([this] in the schema methods) is a snapshot of one
      entry together with its [_id]; [updateOne] writes to the collection and
      leaves the snapshot alone, [save] writes the paths that the method
      assigned.
    - The handlers are asynchronous functions whose awaits run one after the
      other; a handler is a state transformer over the collection.
    - bcrypt and the e-mail pattern of the schema are parameters of the
      development; jsonwebtoken is modelled by what [sign] puts into a token
      and what [verify] checks. *)

From stdpp Require Import gmap strings list.
From Stdlib Require Import ZArith Ascii.

Local Open Scope Z_scope.

(** ** Identifiers and tokens *)

Abbreviation ObjectId := positive.

(** The payloads handed to [jwt.sign] by [generateAccessToken] and
    [generateRefreshToken]. *)
Inductive JwtPayload :=
  | AccessPayload (id : ObjectId) (mail displayName rl : string)
  | RefreshPayload (id : ObjectId) (tokenType : string).

Definition payload_id (p : JwtPayload) : ObjectId :=
  match p with
  | AccessPayload id _ _ _ => id
  | RefreshPayload id _ => id
  end.

(** A token signed by jsonwebtoken with HS256 is determined by its payload,
    the signing key and the two claims [iat] and [exp] (seconds) that [sign]
    adds: nothing random enters it. *)
Record Jwt := {
  jwt_payload : JwtPayload;
  jwt_key : string;
  jwt_iat : Z;
  jwt_exp : Z
}.

(** A token as it travels in the cookie and sits in the registry: either a
    signed JWT or any other string. *)
Inductive Token :=
  | Signed (j : Jwt)
  | Opaque (s : string).

#[global] Instance JwtPayload_eq_dec : EqDecision JwtPayload.
Proof. solve_decision. Defined.
#[global] Instance Jwt_eq_dec : EqDecision Jwt.
Proof. solve_decision. Defined.
#[global] Instance Token_eq_dec : EqDecision Token.
Proof. solve_decision. Defined.

(** JavaScript truthiness of a cookie value: only the empty string is falsy. *)
Definition truthy (t : Token) : bool :=
  match t with
  | Opaque EmptyString => false
  | _ => true
  end.

Inductive JwtError := JsonWebTokenError | TokenExpiredError.

(** [jwt.sign(payload, secret, { expiresIn })]: [iat] is the clock in whole
    seconds and [exp = iat + expiresIn]. *)
Definition jwt_sign (payload : JwtPayload) (secret : string) (expiresIn now : Z) : Token :=
  let iat := now `div` 1000 in
  Signed {| jwt_payload := payload; jwt_key := secret;
            jwt_iat := iat; jwt_exp := iat + expiresIn |}.

(** [jwt.verify(token, secret)]: throws on a malformed token or a signature
    made with another key, throws [TokenExpiredError] once the clock (whole
    seconds) has reached [exp], and returns the payload otherwise. *)
Definition jwt_verify (t : Token) (secret : string) (now : Z) : JwtError + JwtPayload :=
  match t with
  | Opaque _ => inl JsonWebTokenError
  | Signed j =>
      if negb (bool_decide (jwt_key j = secret)) then inl JsonWebTokenError
      else if bool_decide (jwt_exp j <= now `div` 1000) then inl TokenExpiredError
      else inr (jwt_payload j)
  end.

(** The user a signed token names. *)
Definition token_subject (t : Token) : option ObjectId :=
  match t with
  | Signed j => Some (payload_id (jwt_payload j))
  | Opaque _ => None
  end.

(** ** Strings *)

(** [String.prototype.toLowerCase] on the ASCII letters. *)
Definition lower_ascii (c : ascii) : ascii :=
  let n := nat_of_ascii c in
  if ((65 <=? n) && (n <=? 90))%nat then ascii_of_nat (n + 32) else c.

Fixpoint toLowerCase (s : string) : string :=
  match s with
  | EmptyString => EmptyString
  | String c r => String (lower_ascii c) (toLowerCase r)
  end.

(** [String.prototype.trim] on the ASCII white space. *)
Definition is_space (c : ascii) : bool :=
  let n := nat_of_ascii c in
  ((n =? 32) || ((9 <=? n) && (n <=? 13)))%nat.

Fixpoint trimStart (s : string) : string :=
  match s with
  | EmptyString => EmptyString
  | String c r => if is_space c then trimStart r else s
  end.

Fixpoint trimEnd (s : string) : string :=
  match s with
  | EmptyString => EmptyString
  | String c r =>
      match trimEnd r with
      | EmptyString => if is_space c then EmptyString else String c EmptyString
      | r' => String c r'
      end
  end.

Definition trim (s : string) : string := trimEnd (trimStart s).

(** ** The user schema *)

(** An element of the [refreshTokens] array. *)
Record RefreshTokenEntry := {
  token : Token;
  createdAt : Z;
  expiresAt : Z
}.

(** The stored fields of a user.  [loginAttempts] and [lockUntil] are [None]
    when the field is not in the stored document ([$unset]); the profile
    sub-document and the password-reset fields play no part in the session
    logic and are left out. *)
Record User := {
  fullName : string;
  email : string;
  password : string;
  role : string;
  isActive : bool;
  isVerified : bool;
  lastLogin : option Z;
  loginAttempts : option Z;
  lockUntil : option Z;
  refreshTokens : list RefreshTokenEntry
}.

(** A hydrated document: the snapshot of the fields and the [_id]. *)
Record Document := {
  _id : ObjectId;
  fields : User
}.

(** The setters of the [email] path ([lowercase: true], [trim: true]).
    Mongoose runs them on a value assigned to the path and on a value that a
    query filter compares the path with. *)
Definition email_setters (s : string) : string := trim (toLowerCase s).

(** The filter [{ email: v }]: the value is cast through the setters of the
    path before the stored e-mails are compared with it. *)
Definition by_email (v : string) (u : User) : bool :=
  bool_decide (email u = email_setters v).

(** [loginAttempts] as mongoose reads it: the schema default [0] stands in for
    a field that is not stored, and [$inc] counts from 0 when the field is
    missing; no path of the code tells a missing counter from a counter 0. *)
Definition attempts (u : User) : Z := default 0 (loginAttempts u).

Definition set_loginAttempts (v : option Z) (u : User) : User :=
  {| fullName := fullName u; email := email u; password := password u;
     role := role u; isActive := isActive u; isVerified := isVerified u;
     lastLogin := lastLogin u; loginAttempts := v; lockUntil := lockUntil u;
     refreshTokens := refreshTokens u |}.

Definition set_lockUntil (v : option Z) (u : User) : User :=
  {| fullName := fullName u; email := email u; password := password u;
     role := role u; isActive := isActive u; isVerified := isVerified u;
     lastLogin := lastLogin u; loginAttempts := loginAttempts u; lockUntil := v;
     refreshTokens := refreshTokens u |}.

Definition set_lastLogin (v : option Z) (u : User) : User :=
  {| fullName := fullName u; email := email u; password := password u;
     role := role u; isActive := isActive u; isVerified := isVerified u;
     lastLogin := v; loginAttempts := loginAttempts u; lockUntil := lockUntil u;
     refreshTokens := refreshTokens u |}.

Definition set_refreshTokens (v : list RefreshTokenEntry) (u : User) : User :=
  {| fullName := fullName u; email := email u; password := password u;
     role := role u; isActive := isActive u; isVerified := isVerified u;
     lastLogin := lastLogin u; loginAttempts := loginAttempts u;
     lockUntil := lockUntil u; refreshTokens := v |}.

Definition set_password (v : string) (u : User) : User :=
  {| fullName := fullName u; email := email u; password := v;
     role := role u; isActive := isActive u; isVerified := isVerified u;
     lastLogin := lastLogin u; loginAttempts := loginAttempts u;
     lockUntil := lockUntil u; refreshTokens := refreshTokens u |}.

(** Assignment to a path of [this]. *)
Definition assign (f : User → User) (this : Document) : Document :=
  {| _id := _id this; fields := f (fields this) |}.

(** The MongoDB update operators used by the model. *)
Definition inc_loginAttempts (n : Z) (u : User) : User :=
  set_loginAttempts (Some (attempts u + n)) u.

(** The tokens held by a registry. *)
Definition tokens (l : list RefreshTokenEntry) : list Token := token <$> l.

(** [Array.prototype.slice(-n)]: the last [n] elements. *)
Definition slice_last {A} (n : nat) (l : list A) : list A :=
  drop (length l - n) l.

(** ** Configuration, requests and responses *)

(** The options of [config] that the model and the controller read.  The two
    [expiresIn] durations are held in seconds, the unit in which jsonwebtoken
    adds them to [iat]. *)
Record Config := {
  JWT_SECRET : string;
  JWT_EXPIRES_IN : Z;
  JWT_REFRESH_SECRET : string;
  JWT_REFRESH_EXPIRES_IN : Z;
  BCRYPT_ROUNDS : Z;
  isProduction : bool;
  COOKIE_SAME_SITE : string
}.

(** A JSON member other than the three that the handlers read. *)
Inductive Json :=
  | JNull
  | JBool (b : bool)
  | JNumber (n : Z)
  | JString (s : string).

(** [req.body]: the members read by the handlers ([None] when absent) and
    every other member that the caller sent. *)
Record Body := {
  b_fullName : option string;
  b_email : option string;
  b_password : option string;
  b_extra : gmap string Json
}.

(** What a handler reads of the request: the body, the [refreshToken] cookie,
    [req.user?.id] (set by the authentication middleware, on the routes that
    have it) and the errors collected by the validation middleware. *)
Record Request := {
  body : Body;
  cookies_refreshToken : option Token;
  req_user : option ObjectId;
  validation_errors : list string
}.

Record Cookie := {
  c_value : Token;
  c_httpOnly : bool;
  c_secure : bool;
  c_sameSite : string;
  c_maxAge : Z
}.

Inductive CookieOp :=
  | NoCookie
  | SetCookie (c : Cookie)
  | ClearCookie.

(** The [user] object of a response body. *)
Record UserView := {
  v_id : ObjectId;
  v_fullName : string;
  v_email : string;
  v_role : string;
  v_isVerified : bool;
  v_lastLogin : option Z
}.

Record Response := {
  status : Z;
  success : bool;
  message : string;
  errors : list string;
  data_user : option UserView;
  data_accessToken : option Token;
  refreshCookie : CookieOp
}.

(** [res.status(code).json({ success: false, message })]. *)
Definition failure (code : Z) (msg : string) : Response :=
  {| status := code; success := false; message := msg; errors := [];
     data_user := None; data_accessToken := None; refreshCookie := NoCookie |}.

(** ** The collection and the handler monad *)

(** A handler runs against the [users] collection and leaves a new one. *)
Definition M (A : Type) : Type := gmap positive User → A * gmap positive User.

#[global] Instance M_ret : MRet M := λ A x db, (x, db).
#[global] Instance M_bind : MBind M := λ A B f m db, let (a, db') := m db in f a db'.

(** [Model.findById(id)]. *)
Definition findById (id : ObjectId) : M (option Document) :=
  λ db, ((λ u, {| _id := id; fields := u |}) <$> db !! id, db).

(** [Model.findOne(filter)]: the first document, in the order of the
    collection, that passes the filter. *)
Definition findOne (filter : User → bool) : M (option Document) :=
  λ db, ((λ kv : positive * User, {| _id := kv.1; fields := kv.2 |})
           <$> List.find (λ kv, filter kv.2) (map_to_list db), db).

(** [this.updateOne(update)]: the update is applied to the stored document. *)
Definition updateOne (this : Document) (update : User → User) : M () :=
  λ db, ((), alter update (_id this) db).

(** The paths that the schema methods assign before [this.save()]. *)
Inductive Path := P_lastLogin | P_refreshTokens.

(** [this.save()] on a stored document writes the assigned path.  Mongoose
    sends with it the default 0 of a [loginAttempts] that the stored document
    lacks, which reads the same through [attempts], and [updatedAt], which
    is not in the record: the stored [loginAttempts] is to be read through
    [attempts]. *)
Definition save (p : Path) (this : Document) : M () :=
  λ db,
    ((), alter (match p with
                | P_lastLogin => set_lastLogin (lastLogin (fields this))
                | P_refreshTokens => set_refreshTokens (refreshTokens (fields this))
                end) (_id this) db).

(** The unique index on [email]. *)
Definition unique_email (db : gmap positive User) : Prop :=
  ∀ i j u v, db !! i = Some u → db !! j = Some v → email u = email v → i = j.

(** ** The configuration utilities *)

(** JavaScript truthiness of a configuration value. *)
Definition js_truthy (v : Json) : bool :=
  match v with
  | JNull => false
  | JBool b => b
  | JNumber n => negb (bool_decide (n = 0))
  | JString s => negb (bool_decide (s = ""))
  end.

Definition sensitiveKeys : list string :=
  ["JWT_SECRET"; "JWT_REFRESH_SECRET"; "SESSION_SECRET"; "COOKIE_SECRET"].

(** The body of the [forEach] of [sanitizeConfigForLogging]. *)
Definition redact (sanitized : gmap string Json) (key : string) : gmap string Json :=
  match sanitized !! key with
  | Some v => if js_truthy v then <[ key := JString "[REDACTED]" ]> sanitized
              else sanitized
  | None => sanitized
  end.

(** What the sanitizer makes of a sensitive member. *)
Definition redacted (o : option Json) : option Json :=
  (λ v, if js_truthy v then JString "[REDACTED]" else v) <$> o.

(** [sanitizeConfigForLogging(config)]: a copy of the object in which the
    sensitive members that hold a truthy value hold "[REDACTED]". *)
Definition sanitizeConfigForLogging (config : gmap string Json) : gmap string Json :=
  foldl redact config sensitiveKeys.

(** [String.prototype.split] on a separator of one character. *)
Fixpoint split (sep : ascii) (s : string) : list string :=
  match s with
  | EmptyString => [EmptyString]
  | String c r =>
      if Ascii.eqb c sep then EmptyString :: split sep r
      else match split sep r with
           | piece :: rest => String c piece :: rest
           | [] => [String c EmptyString]
           end
  end.

(** [Array.prototype.join] on strings. *)
Fixpoint join (sep : string) (items : list string) : string :=
  match items with
  | [] => EmptyString
  | [item] => item
  | item :: rest => item +:+ sep +:+ join sep rest
  end.

(** The character occurs in the string. *)
Fixpoint occurs (c : ascii) (s : string) : bool :=
  match s with
  | EmptyString => false
  | String a r => Ascii.eqb a c || occurs c r
  end.

(** The values that [parseArray] tells apart: an array (of strings), a
    string, anything else. *)
Inductive ArrayValue :=
  | AnArray (items : list string)
  | AString (s : string)
  | NoArray.

Definition parseArray (value : ArrayValue) (defaultValue : list string) : list string :=
  match value with
  | AnArray items => items
  | AString s => filter (λ item, item ≠ EmptyString) (trim <$> split "," s)
  | NoArray => defaultValue
  end.

(** An item as [parseArray] yields them: not empty, no white space around
    it, no comma in it. *)
Definition clean_item (item : string) : Prop :=
  item ≠ EmptyString ∧ trim item = item ∧ occurs "," item = false.

(** ** Fixtures *)

Definition cfg0 : Config :=
  {| JWT_SECRET := "dev-secret-change-in-production-2024";
     JWT_EXPIRES_IN := 900;
     JWT_REFRESH_SECRET := "dev-refresh-secret-change-in-production-2024";
     JWT_REFRESH_EXPIRES_IN := 604800;
     BCRYPT_ROUNDS := 12;
     isProduction := false;
     COOKIE_SAME_SITE := "strict" |}.

(** A configuration whose refresh tokens live for one day. *)
Definition cfg_1d : Config :=
  {| JWT_SECRET := JWT_SECRET cfg0;
     JWT_EXPIRES_IN := 900;
     JWT_REFRESH_SECRET := JWT_REFRESH_SECRET cfg0;
     JWT_REFRESH_EXPIRES_IN := 86400;
     BCRYPT_ROUNDS := 12;
     isProduction := false;
     COOKIE_SAME_SITE := "strict" |}.

(** Stand-ins for bcrypt and for the e-mail pattern, used to run the model. *)
Definition toy_hash (rounds : Z) (plain : string) : string := "$2a$" +:+ plain.
Definition toy_compare (plain hash : string) : bool := bool_decide (toy_hash 12 plain = hash).
Definition toy_pattern (s : string) : bool := true.

Definition alice : User :=
  {| fullName := "Alice"; email := "alice@example.com";
     password := toy_hash 12 "Secur3!pass"; role := "user";
     isActive := true; isVerified := false; lastLogin := None;
     loginAttempts := Some 0; lockUntil := None; refreshTokens := [] |}.

Definition db_alice : gmap positive User := {[ 1%positive := alice ]}.

Definition login_body (mail pw : string) : Body :=
  {| b_fullName := None; b_email := Some mail; b_password := Some pw; b_extra := ∅ |}.

Definition login_request (mail pw : string) : Request :=
  {| body := login_body mail pw; cookies_refreshToken := None;
     req_user := None; validation_errors := [] |}.

Definition cookie_request (t : option Token) (uid : option ObjectId) : Request :=
  {| body := {| b_fullName := None; b_email := None; b_password := None; b_extra := ∅ |};
     cookies_refreshToken := t; req_user := uid; validation_errors := [] |}.

Definition wrong_request : Request := login_request "Alice@Example.com" "guess".
Definition good_request : Request := login_request "alice@example.com" "Secur3!pass".

Definition doc_alice : Document := {| _id := 1%positive; fields := alice |}.

(** The account after five failures, the last of them at time 0. *)
Definition alice_after_five : User :=
  set_lockUntil (Some 7200000) (set_loginAttempts (Some 5) alice).

(** The refresh token minted for [doc_alice] under [cfg0] during second 1. *)
Definition alice_token : Token :=
  Signed {| jwt_payload := RefreshPayload 1%positive "refresh";
            jwt_key := JWT_REFRESH_SECRET cfg0; jwt_iat := 1; jwt_exp := 604801 |}.

(** The collection after [alice] has logged in at time 1000. *)
Definition db_session : gmap positive User :=
  {[ 1%positive :=
       set_refreshTokens
         [{| token := alice_token; createdAt := 1000; expiresAt := 604801000 |}]
         (set_lastLogin (Some 1000) (set_loginAttempts None alice)) ]}.

Definition entry (n : Z) : RefreshTokenEntry :=
  {| token := Opaque "t"; createdAt := n; expiresAt := n + 604800000 |}.

Definition doc_full : Document :=
  {| _id := 1%positive;
     fields := set_refreshTokens [entry 1; entry 2; entry 3; entry 4; entry 5] alice |}.

Definition register_request : Request :=
  {| body := {| b_fullName := Some " Bob "; b_email := Some "Bob@Example.com";
                b_password := Some "hunter2hunter2";
                b_extra := {[ "role" := JString "admin"; "isVerified" := JBool true ]} |};
     cookies_refreshToken := None; req_user := None; validation_errors := [] |}.

(** A registration under the address of [alice], in another case. *)
Definition taken_request : Request :=
  {| body := {| b_fullName := Some "Alice Again"; b_email := Some "ALICE@example.com";
                b_password := Some "An0ther!pass"; b_extra := ∅ |};
     cookies_refreshToken := None; req_user := None; validation_errors := [] |}.

(** A deactivated account. *)
Definition mallory : User :=
  {| fullName := "Mallory"; email := "mallory@example.com";
     password := toy_hash 12 "Passw0rd!"; role := "user";
     isActive := false; isVerified := false; lastLogin := None;
     loginAttempts := Some 0; lockUntil := None; refreshTokens := [] |}.

Definition db_mallory : gmap positive User := {[ 7%positive := mallory ]}.

Definition db_expired_lock : gmap positive User := {[ 1%positive := alice_after_five ]}.

Section Gatekeeper.

(** [bcrypt.hash] with a salt of the given number of rounds, [bcrypt.compare],
    and the [match] pattern of the [email] path. *)
Variable bcrypt_hash : Z → string → string.
Variable bcrypt_compare : string → string → bool.
Variable email_pattern : string → bool.
Variable config : Config.

(** ** The schema methods *)

Definition comparePassword (this : Document) (candidatePassword : string) : bool :=
  bcrypt_compare candidatePassword (password (fields this)).

Definition lock_duration : Z := 2 * 60 * 60 * 1000.

(** [incLoginAttempts]: the decision is taken on the snapshot [this], the
    update is applied to the stored document. *)
Definition incLoginAttempts (this : Document) (now : Z) : M () :=
  if match lockUntil (fields this) with
     | Some lock => bool_decide (lock < now)
     | None => false
     end
  then updateOne this (λ u, set_loginAttempts (Some 1) (set_lockUntil None u))
  else
    let updates := inc_loginAttempts 1 in
    let updates :=
      if bool_decide (attempts (fields this) + 1 >= 5)
         && negb (bool_decide (is_Some (lockUntil (fields this))))
      then λ u, set_lockUntil (Some (now + lock_duration)) (updates u)
      else updates in
    updateOne this updates.

Definition resetLoginAttempts (this : Document) : M () :=
  updateOne this (λ u, set_loginAttempts None (set_lockUntil None u)).

(** The virtual [isLocked]. *)
Definition isLocked (this : Document) (now : Z) : bool :=
  match lockUntil (fields this) with
  | Some lock => bool_decide (lock > now)
  | None => false
  end.

Definition generateAccessToken (this : Document) (now : Z) : Token :=
  jwt_sign (AccessPayload (_id this) (email (fields this))
              (fullName (fields this)) (role (fields this)))
    (JWT_SECRET config) (JWT_EXPIRES_IN config) now.

Definition generateRefreshToken (this : Document) (now : Z) : Token :=
  jwt_sign (RefreshPayload (_id this) "refresh")
    (JWT_REFRESH_SECRET config) (JWT_REFRESH_EXPIRES_IN config) now.

Definition seven_days : Z := 7 * 24 * 60 * 60 * 1000.

(** [addRefreshToken]: [expiresAt] is the date seven days from now (a server
    whose local days all have 24 hours), [createdAt] takes its default
    [Date.now]. *)
Definition addRefreshToken (this : Document) (tok : Token) (now : Z) : M Document :=
  let expires := now + seven_days in
  let pushed := refreshTokens (fields this)
                ++ [{| token := tok; createdAt := now; expiresAt := expires |}] in
  let kept := if bool_decide (5 < length pushed)%nat then slice_last 5 pushed else pushed in
  let this := assign (set_refreshTokens kept) this in
  save P_refreshTokens this;; mret this.

Definition removeRefreshToken (this : Document) (tok : Token) : M Document :=
  let this := assign (set_refreshTokens
                        (filter (λ t, token t ≠ tok) (refreshTokens (fields this)))) this in
  save P_refreshTokens this;; mret this.

Definition clearAllRefreshTokens (this : Document) : M Document :=
  let this := assign (set_refreshTokens []) this in
  save P_refreshTokens this;; mret this.

Definition updateLastLogin (this : Document) (now : Z) : M Document :=
  let this := assign (set_lastLogin (Some now)) this in
  save P_lastLogin this;; mret this.

Definition findByEmail (mail : string) : M (option Document) :=
  findOne (by_email (toLowerCase mail)).

Definition cleanupExpiredTokens (this : Document) (now : Z) : M Document :=
  let this := assign (set_refreshTokens
                        (filter (λ t, expiresAt t > now) (refreshTokens (fields this)))) this in
  save P_refreshTokens this;; mret this.

(** ** Creating a user *)

(** [new User({ fullName, email, password })]: the setters of the schema trim
    [fullName] and [email] and lower-case [email]; every other path takes its
    schema default. *)
Definition new_User (oid : ObjectId) (fn mail pw : string) : Document :=
  {| _id := oid;
     fields := {| fullName := trim fn; email := trim (toLowerCase mail);
                  password := pw; role := "user"; isActive := true;
                  isVerified := false; lastLogin := None;
                  loginAttempts := Some 0; lockUntil := None;
                  refreshTokens := [] |} |}.

(** The validators of the schema, run by [save] before the pre-save hook. *)
Definition validate (u : User) : bool :=
  bool_decide (2 ≤ String.length (fullName u))%nat
  && bool_decide (String.length (fullName u) ≤ 100)%nat
  && negb (bool_decide (email u = ""))
  && email_pattern (email u)
  && bool_decide (8 ≤ String.length (password u))%nat.

(** The insert of a new document: the [_id] index and the unique index on
    [email] reject a duplicate key. *)
Definition insertOne (this : Document) : M bool :=
  λ db,
    if bool_decide (is_Some (db !! _id this))
       || existsb (λ kv : positive * User, bool_decide (email kv.2 = email (fields this)))
            (map_to_list db)
    then (false, db)
    else (true, <[_id this := fields this]> db).

(** [this.save()] on a new document: validation, the pre-save hook that
    replaces the password by its hash, then the insert.  [None] stands for the
    rejected promise. *)
Definition save_new (this : Document) : M (option Document) :=
  if validate (fields this) then
    let rounds := if bool_decide (BCRYPT_ROUNDS config = 0) then 12 else BCRYPT_ROUNDS config in
    let this := assign (set_password (bcrypt_hash rounds (password (fields this)))) this in
    ok ← insertOne this;
    mret (if ok : bool then Some this else None)
  else mret None.

(** ** The controller *)

Definition refresh_cookie (tok : Token) : CookieOp :=
  SetCookie {| c_value := tok; c_httpOnly := true; c_secure := isProduction config;
               c_sameSite := COOKIE_SAME_SITE config;
               c_maxAge := 7 * 24 * 60 * 60 * 1000 |}.

Definition validation_failed (req : Request) : Response :=
  {| status := 400; success := false; message := "Validation failed";
     errors := validation_errors req; data_user := None;
     data_accessToken := None; refreshCookie := NoCookie |}.

Definition register (req : Request) (now : Z) (oid : ObjectId) : M Response :=
  if negb (bool_decide (validation_errors req = [])) then mret (validation_failed req)
  else
    match b_email (body req) with
    | None => mret (failure 500 "Internal server error during registration")
    | Some mail =>
        existingUser ← findOne (by_email (toLowerCase mail));
        match existingUser with
        | Some _ => mret (failure 409 "User already exists with this email")
        | None =>
            match b_fullName (body req), b_password (body req) with
            | Some fn, Some pw =>
                saved ← save_new (new_User oid fn (toLowerCase mail) pw);
                match saved with
                | None => mret (failure 500 "Internal server error during registration")
                | Some user =>
                    let accessToken := generateAccessToken user now in
                    let refreshToken := generateRefreshToken user now in
                    user ← addRefreshToken user refreshToken now;
                    mret {| status := 201; success := true;
                            message := "User registered successfully"; errors := [];
                            data_user :=
                              Some {| v_id := _id user;
                                      v_fullName := fullName (fields user);
                                      v_email := email (fields user);
                                      v_role := role (fields user);
                                      v_isVerified := isVerified (fields user);
                                      v_lastLogin := None |};
                            data_accessToken := Some accessToken;
                            refreshCookie := refresh_cookie refreshToken |}
                end
            | _, _ => mret (failure 500 "Internal server error during registration")
            end
        end
    end.

Definition login (req : Request) (now : Z) : M Response :=
  if negb (bool_decide (validation_errors req = [])) then mret (validation_failed req)
  else
    match b_email (body req) with
    | None => mret (failure 500 "Internal server error during login")
    | Some mail =>
        found ← findByEmail mail;
        match found with
        | None => mret (failure 401 "Invalid credentials")
        | Some user =>
            if isLocked user now then
              mret (failure 423
                      "Account temporarily locked due to too many failed login attempts")
            else if negb (isActive (fields user)) then
              mret (failure 403 "Account is deactivated")
            else
              match b_password (body req) with
              | None => mret (failure 500 "Internal server error during login")
              | Some pw =>
                  if negb (comparePassword user pw) then
                    incLoginAttempts user now;;
                    mret (failure 401 "Invalid credentials")
                  else
                    resetLoginAttempts user;;
                    user ← updateLastLogin user now;
                    user ← cleanupExpiredTokens user now;
                    let accessToken := generateAccessToken user now in
                    let refreshToken := generateRefreshToken user now in
                    user ← addRefreshToken user refreshToken now;
                    mret {| status := 200; success := true;
                            message := "Login successful"; errors := [];
                            data_user :=
                              Some {| v_id := _id user;
                                      v_fullName := fullName (fields user);
                                      v_email := email (fields user);
                                      v_role := role (fields user);
                                      v_isVerified := isVerified (fields user);
                                      v_lastLogin := lastLogin (fields user) |};
                            data_accessToken := Some accessToken;
                            refreshCookie := refresh_cookie refreshToken |}
              end
        end
    end.

Definition refreshToken (req : Request) (now : Z) : M Response :=
  match cookies_refreshToken req with
  | None => mret (failure 401 "Refresh token not provided")
  | Some tok =>
      if negb (truthy tok) then mret (failure 401 "Refresh token not provided")
      else
        match jwt_verify tok (JWT_REFRESH_SECRET config) now with
        | inl _ => mret (failure 401 "Invalid or expired refresh token")
        | inr decoded =>
            found ← findById (payload_id decoded);
            match found with
            | None => mret (failure 401 "User not found")
            | Some user =>
                let tokenExists :=
                  existsb (λ t, bool_decide (token t = tok)) (refreshTokens (fields user)) in
                if negb tokenExists then mret (failure 401 "Invalid refresh token")
                else
                  let newAccessToken := generateAccessToken user now in
                  let newRefreshToken := generateRefreshToken user now in
                  user ← removeRefreshToken user tok;
                  user ← addRefreshToken user newRefreshToken now;
                  mret {| status := 200; success := true;
                          message := "Token refreshed successfully"; errors := [];
                          data_user := None;
                          data_accessToken := Some newAccessToken;
                          refreshCookie := refresh_cookie newRefreshToken |}
            end
        end
  end.

Definition logout_ok : Response :=
  {| status := 200; success := true; message := "Logout successful"; errors := [];
     data_user := None; data_accessToken := None; refreshCookie := ClearCookie |}.

Definition logout (req : Request) : M Response :=
  match cookies_refreshToken req, req_user req with
  | Some tok, Some userId =>
      (if truthy tok then
         found ← findById userId;
         match found with
         | Some user => removeRefreshToken user tok;; mret ()
         | None => mret ()
         end
       else mret ());;
      mret logout_ok
  | _, _ => mret logout_ok
  end.

Definition logoutAll (req : Request) : M Response :=
  match req_user req with
  | None => mret (failure 500 "Internal server error during logout")
  | Some userId =>
      found ← findById userId;
      match found with
      | Some user => clearAllRefreshTokens user;; mret ()
      | None => mret ()
      end;;
      mret {| status := 200; success := true;
              message := "Logged out from all devices successfully"; errors := [];
              data_user := None; data_accessToken := None;
              refreshCookie := ClearCookie |}
  end.

(** A run of [login] requests, one after the other. *)
Fixpoint logins (reqs : list (Request * Z)) : M (list Response) :=
  match reqs with
  | [] => mret []
  | (req, now) :: rest =>
      r ← login req now;
      rs ← logins rest;
      mret (r :: rs)
  end.

(** A run of [addRefreshToken] calls on one document. *)
Fixpoint addRefreshTokens (this : Document) (adds : list (Token * Z)) : M Document :=
  match adds with
  | [] => mret this
  | (tok, now) :: rest =>
      this ← addRefreshToken this tok now;
      addRefreshTokens this rest
  end.

(** ** Vocabulary of the statements *)

Definition invalid_credentials : Response := failure 401 "Invalid credentials".

Definition account_locked : Response :=
  failure 423 "Account temporarily locked due to too many failed login attempts".

(** A validated login request that names the account [u]: its e-mail,
    lower-cased and trimmed as the lookup casts it, is the stored one. *)
Definition addresses (u : User) (req : Request) : Prop :=
  validation_errors req = [] ∧
  ∃ mail, b_email (body req) = Some mail ∧ trim (toLowerCase mail) = email u.

(** A validated login request that names the account [u] and carries a
    password that [bcrypt.compare] rejects. *)
Definition wrong_password_for (u : User) (req : Request) : Prop :=
  addresses u req ∧
  ∃ pw, b_password (body req) = Some pw ∧ bcrypt_compare pw (password u) = false.

(** A validated login request whose e-mail, lower-cased and trimmed as the
    lookup casts it, is the e-mail of no stored user. *)
Definition unknown_email (db : gmap positive User) (req : Request) : Prop :=
  validation_errors req = [] ∧
  ∃ mail, b_email (body req) = Some mail ∧
    ∀ i u, db !! i = Some u → email u ≠ trim (toLowerCase mail).

(** The recorded lock lies in the past. *)
Definition lock_in_the_past (u : User) (now : Z) : Prop :=
  ∃ lock, lockUntil u = Some lock ∧ lock < now.

(** The failure path of the lockout policy in the words of the specification:
    [u] is the record at the failed attempt, [u'] the record it leaves. *)
Definition failure_path_as_specified (u : User) (now : Z) (u' : User) : Prop :=
  (lock_in_the_past u now → attempts u' = 1 ∧ lockUntil u' = None) ∧
  (¬ lock_in_the_past u now →
     attempts u' = attempts u + 1 ∧
     (attempts u + 1 >= 5 → lockUntil u' = Some (now + 2 * 60 * 60 * 1000))).

(** What is stored under the [_id] of [this] holds the registry of [this]. *)
Definition registry_saved (this : Document) (db : gmap positive User) : Prop :=
  ∀ u, db !! _id this = Some u → refreshTokens u = refreshTokens (fields this).

(** The request with other extra members in its body. *)
Definition with_extra (extra : gmap string Json) (req : Request) : Request :=
  {| body := {| b_fullName := b_fullName (body req); b_email := b_email (body req);
                b_password := b_password (body req); b_extra := extra |};
     cookies_refreshToken := cookies_refreshToken req;
     req_user := req_user req;
     validation_errors := validation_errors req |}.

(** The token passes [jwt.verify] under the refresh secret at [now]. *)
Definition verifies (tok : Token) (now : Z) : bool :=
  match jwt_verify tok (JWT_REFRESH_SECRET config) now with
  | inr _ => true
  | inl _ => false
  end.

(** Single use of a refresh token in the words of the specification: once a
    refresh that presented [tok] has been answered 200, a refresh that
    presents [tok] again is answered 401. *)
Definition single_use_as_specified : Prop :=
  ∀ req now db tok now',
    cookies_refreshToken req = Some tok →
    status (refreshToken req now db).1 = 200 →
    status (refreshToken req now' (refreshToken req now db).2).1 = 401.

(** The expiry of a registry entry in the words of the specification: the
    entry stored for a freshly minted token expires at [now] plus the
    configured lifetime of refresh tokens. *)
Definition expiry_as_specified : Prop :=
  ∀ this now db,
    expiresAt <$> last (refreshTokens
                          (fields (addRefreshToken this (generateRefreshToken this now)
                                     now db).1))
    = Some (now + 1000 * JWT_REFRESH_EXPIRES_IN config).

(** One invocation of a handler of [AuthController], with what it reads of
    the request and of the environment. *)
Inductive Call :=
  | CallRegister (req : Request) (now : Z) (oid : ObjectId)
  | CallLogin (req : Request) (now : Z)
  | CallRefreshToken (req : Request) (now : Z)
  | CallLogout (req : Request)
  | CallLogoutAll (req : Request).

Definition handle (c : Call) : M Response :=
  match c with
  | CallRegister req now oid => register req now oid
  | CallLogin req now => login req now
  | CallRefreshToken req now => refreshToken req now
  | CallLogout req => logout req
  | CallLogoutAll req => logoutAll req
  end.

(** Calls served one after the other. *)
Fixpoint serve (cs : list Call) : M (list Response) :=
  match cs with
  | [] => mret []
  | c :: rest =>
      r ← handle c;
      rs ← serve rest;
      mret (r :: rs)
  end.

(** A run of calls against the collection that holds [alice]: a visitor
    registers, a wrong and a right password are tried, the session is
    refreshed and closed. *)
Definition a_run : list Call :=
  [CallRegister register_request 5000 2%positive;
   CallLogin wrong_request 6000;
   CallLogin good_request 7000;
   CallRefreshToken (cookie_request (Some alice_token) None) 8000;
   CallLogout (cookie_request (Some alice_token) (Some 1%positive));
   CallLogoutAll (cookie_request None (Some 2%positive))].

(** A lock on record goes with at least five counted failures. *)
Definition lock_counted (u : User) : Prop :=
  is_Some (lockUntil u) → attempts u >= 5.

(** [u'] differs from [u] in session state only: the identity fields are
    the same, a registry within the bound stays within it, and a lock that
    goes with five counted failures still does. *)
Definition session_update (u u' : User) : Prop :=
  fullName u' = fullName u ∧ email u' = email u ∧ password u' = password u ∧
  role u' = role u ∧ isActive u' = isActive u ∧ isVerified u' = isVerified u ∧
  ((length (refreshTokens u) ≤ 5)%nat → (length (refreshTokens u') ≤ 5)%nat) ∧
  (lock_counted u → lock_counted u').

(** A record as a registration leaves it. *)
Definition new_account (u : User) : Prop :=
  role u = "user" ∧ isActive u = true ∧ isVerified u = false ∧
  (∃ rounds pw, password u = bcrypt_hash rounds pw) ∧
  attempts u = 0 ∧ lockUntil u = None ∧ length (refreshTokens u) = 1%nat.

(** What one call may do to the collection. *)
Inductive transition (db : gmap positive User) : gmap positive User → Prop :=
  | transition_none : transition db db
  | transition_update i u u' :
      db !! i = Some u → session_update u u' → transition db (<[ i := u' ]> db)
  | transition_insert i u' :
      db !! i = None → new_account u' →
      (∀ j v, db !! j = Some v → email v ≠ email u') →
      transition db (<[ i := u' ]> db).

Definition registry_bounded (db : gmap positive User) : Prop :=
  ∀ i u, db !! i = Some u → (length (refreshTokens u) ≤ 5)%nat.

Definition locks_counted (db : gmap positive User) : Prop :=
  ∀ i u, db !! i = Some u → lock_counted u.

Definition defaults_kept (db : gmap positive User) : Prop :=
  ∀ i u, db !! i = Some u → role u = "user" ∧ isActive u = true ∧ isVerified u = false.

Definition passwords_hashed (db : gmap positive User) : Prop :=
  ∀ i u, db !! i = Some u → ∃ rounds pw, password u = bcrypt_hash rounds pw.

(** The fields that identify an account and carry its rights. *)
Definition same_identity (u u' : User) : Prop :=
  fullName u' = fullName u ∧ email u' = email u ∧ password u' = password u ∧
  role u' = role u ∧ isActive u' = isActive u ∧ isVerified u' = isVerified u.

(** A registration request that passes every check of [register] on the
    collection [db]: it is validated, carries the three members, names an
    e-mail that no stored user has (lower-cased and trimmed, as the handler
    looks it up and as the schema stores it), passes the validators of the
    schema, and the [_id] drawn for the new document is not in use. *)
Definition registrable (db : gmap positive User) (req : Request)
    (fn mail pw : string) (oid : ObjectId) : Prop :=
  validation_errors req = [] ∧
  b_fullName (body req) = Some fn ∧ b_email (body req) = Some mail ∧
  b_password (body req) = Some pw ∧
  (∀ j v, db !! j = Some v → email v ≠ trim (toLowerCase mail)) ∧
  validate (fields (new_User oid fn (toLowerCase mail) pw)) = true ∧
  db !! oid = None.

(** ** The collection *)

Lemma findOne_Some (p : User → bool) (db db' : gmap positive User) (d : Document) :
  findOne p db = (Some d, db') →
  db' = db ∧ db !! _id d = Some (fields d) ∧ p (fields d) = true.
Proof.
  unfold findOne. intros H.
  destruct (List.find _ _) as [[k v]|] eqn:E; simpl in H; [|discriminate].
  injection H as <- <-. apply find_some in E as [Hin Hp].
  apply list_elem_of_In, elem_of_map_to_list in Hin. auto.
Qed.

Lemma findOne_None (p : User → bool) (db : gmap positive User) :
  (∀ i u, db !! i = Some u → p u = false) → findOne p db = (None, db).
Proof.
  intros H. unfold findOne.
  destruct (List.find _ _) as [[k v]|] eqn:E; [|reflexivity].
  apply find_some in E as [Hin Hp].
  apply list_elem_of_In, elem_of_map_to_list in Hin.
  simpl in Hp. rewrite (H _ _ Hin) in Hp. discriminate.
Qed.

Lemma findOne_unique (p : User → bool) (db : gmap positive User) (i : ObjectId) (u : User) :
  (∀ j k v w, db !! j = Some v → db !! k = Some w → p v = true → p w = true → j = k) →
  db !! i = Some u → p u = true →
  findOne p db = (Some {| _id := i; fields := u |}, db).
Proof.
  intros Huniq Hi Hp. unfold findOne.
  destruct (List.find _ _) as [[k v]|] eqn:E.
  - apply find_some in E as [Hin Hv]. simpl in Hv.
    apply list_elem_of_In, elem_of_map_to_list in Hin.
    assert (k = i) as -> by eauto.
    simpl. congruence.
  - exfalso. pose proof (find_none _ _ E (i, u)) as E'. simpl in E'.
    rewrite Hp in E'. enough (false = true) by discriminate. symmetry. apply E'.
    apply list_elem_of_In, elem_of_map_to_list. exact Hi.
Qed.

Lemma lower_ascii_idemp (c : ascii) : lower_ascii (lower_ascii c) = lower_ascii c.
Proof. destruct c as [[] [] [] [] [] [] [] []]; reflexivity. Qed.

Lemma toLowerCase_idemp (s : string) : toLowerCase (toLowerCase s) = toLowerCase s.
Proof.
  induction s as [|c s IH]; cbn; [reflexivity|].
  rewrite lower_ascii_idemp, IH. reflexivity.
Qed.

(** What the lookup compares the stored e-mails with. *)
Lemma by_email_toLowerCase (mail : string) (u : User) :
  by_email (toLowerCase mail) u = bool_decide (email u = trim (toLowerCase mail)).
Proof. unfold by_email, email_setters. rewrite toLowerCase_idemp. reflexivity. Qed.

Lemma findByEmail_lookup (db : gmap positive User) (i : ObjectId) (u : User) (mail : string) :
  unique_email db → db !! i = Some u → trim (toLowerCase mail) = email u →
  findByEmail mail db = (Some {| _id := i; fields := u |}, db).
Proof.
  intros Huniq Hi Hm. unfold findByEmail. apply findOne_unique; auto.
  - intros j k v w Hj Hk Hv Hw. rewrite by_email_toLowerCase in Hv, Hw.
    apply bool_decide_eq_true in Hv, Hw. eapply Huniq; eauto. congruence.
  - rewrite by_email_toLowerCase. apply bool_decide_eq_true. auto.
Qed.

Lemma findByEmail_unknown (db : gmap positive User) (mail : string) :
  (∀ i u, db !! i = Some u → email u ≠ trim (toLowerCase mail)) →
  findByEmail mail db = (None, db).
Proof.
  intros H. apply findOne_None. intros i u Hi. rewrite by_email_toLowerCase.
  apply bool_decide_eq_false. eauto.
Qed.

Lemma unique_email_singleton (i : ObjectId) (u : User) :
  unique_email ({[ i := u ]} : gmap positive User).
Proof.
  intros j k v w Hj Hk _.
  apply lookup_singleton_Some in Hj as [<- _], Hk as [<- _]. reflexivity.
Qed.

Arguments findOne : simpl never.
Arguments findById : simpl never.
Arguments findByEmail : simpl never.
Arguments incLoginAttempts : simpl never.
Arguments resetLoginAttempts : simpl never.
Arguments addRefreshToken : simpl never.
Arguments removeRefreshToken : simpl never.
Arguments cleanupExpiredTokens : simpl never.
Arguments clearAllRefreshTokens : simpl never.
Arguments updateLastLogin : simpl never.
Arguments generateAccessToken : simpl never.
Arguments generateRefreshToken : simpl never.
Arguments jwt_verify : simpl never.
Arguments isLocked : simpl never.
Arguments slice_last : simpl never.
Arguments tokens : simpl never.

Ltac run := unfold mbind, M_bind, mret, M_ret; cbn.

(** ** logout *)

(** C9.  A logout request that carries no authenticated user identity
    ([req.user] is undefined, as on the public route, which attaches no
    authentication middleware) leaves the whole collection, hence every
    user's refresh-token registry, as it was, whatever token the cookie
    presents, and answers 200 with [success: true]. *)
Theorem logout_without_identity_changes_nothing
    (req : Request) (db : gmap positive User) :
  req_user req = None →
  ∃ r, logout req db = (r, db) ∧ status r = 200 ∧ success r = true ∧
       ∀ i, refreshTokens <$> (logout req db).2 !! i = refreshTokens <$> db !! i.
Proof.
  intros Hu. exists logout_ok. unfold logout. rewrite Hu.
  destruct (cookies_refreshToken req); auto.
Qed.

(** ** login: the outcomes before the password is accepted *)

Lemma login_unknown (req : Request) (now : Z) (db : gmap positive User) :
  unknown_email db req → login req now db = (invalid_credentials, db).
Proof.
  intros (Hv & mail & Hm & Hno). unfold login. rewrite Hv, Hm. run.
  rewrite (findByEmail_unknown _ _ Hno). reflexivity.
Qed.

Lemma login_locked (req : Request) (now : Z) (db : gmap positive User)
    (i : ObjectId) (u : User) :
  unique_email db → db !! i = Some u → addresses u req →
  isLocked {| _id := i; fields := u |} now = true →
  login req now db = (account_locked, db).
Proof.
  intros Huniq Hi (Hv & mail & Hm & He) Hl. unfold login. rewrite Hv, Hm. run.
  rewrite (findByEmail_lookup _ _ _ _ Huniq Hi He), Hl. reflexivity.
Qed.

Lemma login_wrong_password (req : Request) (now : Z) (db : gmap positive User)
    (i : ObjectId) (u : User) :
  unique_email db → db !! i = Some u → wrong_password_for u req →
  isLocked {| _id := i; fields := u |} now = false → isActive u = true →
  login req now db
  = (invalid_credentials, (incLoginAttempts {| _id := i; fields := u |} now db).2).
Proof.
  intros Huniq Hi ((Hv & mail & Hm & He) & pw & Hp & Hc) Hl Ha.
  unfold login. rewrite Hv, Hm. run.
  rewrite (findByEmail_lookup _ _ _ _ Huniq Hi He), Hl. cbn.
  rewrite Ha, Hp. unfold comparePassword. cbn. rewrite Hc. cbn.
  destruct (incLoginAttempts _ _ _) as [[] db']. reflexivity.
Qed.

(** C8.  A login with an e-mail that matches no user and a login with the
    e-mail of an existing, unlocked, active user and a wrong password are
    answered by the same response: status 401, [success: false], message
    "Invalid credentials", no data and no cookie.  An e-mail matches a user
    when it is the stored one once lower-cased and trimmed, as the lookup
    casts it. *)
Theorem login_failures_indistinguishable
    (db1 db2 : gmap positive User) (req1 req2 : Request) (now1 now2 : Z)
    (i : ObjectId) (u : User) :
  unknown_email db1 req1 →
  unique_email db2 → db2 !! i = Some u →
  isLocked {| _id := i; fields := u |} now2 = false → isActive u = true →
  wrong_password_for u req2 →
  (login req1 now1 db1).1 = (login req2 now2 db2).1 ∧
  (login req1 now1 db1).1 = invalid_credentials.
Proof.
  intros H1 Huniq Hi Hl Ha H2.
  rewrite (login_unknown _ _ _ H1).
  rewrite (login_wrong_password _ _ _ _ _ Huniq Hi H2 Hl Ha). auto.
Qed.

(** ** The lockout policy *)

Lemma incLoginAttempts_unlocked (i : ObjectId) (u : User) (now : Z)
    (db : gmap positive User) :
  db !! i = Some u → lockUntil u = None →
  (incLoginAttempts {| _id := i; fields := u |} now db).2
  = <[ i := set_lockUntil
              (if bool_decide (attempts u + 1 >= 5) then Some (now + lock_duration) else None)
              (inc_loginAttempts 1 u) ]> db.
Proof.
  intros Hi Hl. unfold incLoginAttempts, updateOne. simpl. rewrite Hl. simpl.
  rewrite andb_true_r.
  apply map_eq. intros j. destruct (decide (i = j)) as [<-|Hne].
  - rewrite lookup_insert_eq. case_bool_decide; simpl.
    + rewrite lookup_alter_eq, Hi. reflexivity.
    + rewrite lookup_alter_eq, Hi. simpl. f_equal.
      unfold inc_loginAttempts, set_lockUntil, set_loginAttempts. simpl.
      rewrite Hl. reflexivity.
  - rewrite lookup_insert_ne by done. case_bool_decide; simpl;
      rewrite lookup_alter_ne by done; reflexivity.
Qed.

Lemma unique_email_insert (i : ObjectId) (u u' : User) (db : gmap positive User) :
  db !! i = Some u → email u' = email u → unique_email db →
  unique_email (<[ i := u' ]> db).
Proof.
  intros Hi He Huniq j k v w Hj Hk Hvw.
  assert (∀ l x, <[ i := u' ]> db !! l = Some x →
                 ∃ y, db !! l = Some y ∧ email y = email x) as Hback.
  { intros l x Hl. destruct (decide (i = l)) as [<-|Hne].
    - rewrite lookup_insert_eq in Hl. injection Hl as <-. eauto.
    - rewrite lookup_insert_ne in Hl by done. eauto. }
  destruct (Hback _ _ Hj) as (v' & Hv' & Ev), (Hback _ _ Hk) as (w' & Hw' & Ew).
  eapply Huniq; eauto. congruence.
Qed.

Lemma wrong_password_for_same_account (u u' : User) (req : Request) :
  email u' = email u → password u' = password u →
  wrong_password_for u req → wrong_password_for u' req.
Proof.
  intros He Hp ((Hv & mail & Hm & Hl) & pw & Hpw & Hc).
  split; [split; [done | exists mail; split; congruence] |].
  exists pw. split; congruence.
Qed.

Lemma isLocked_no_lock (i : ObjectId) (u : User) (now : Z) :
  lockUntil u = None → isLocked {| _id := i; fields := u |} now = false.
Proof. intros H. unfold isLocked. cbn. rewrite H. reflexivity. Qed.

Lemma logins_app (l1 l2 : list (Request * Z)) (db : gmap positive User) :
  logins (l1 ++ l2) db
  = let (r1, db1) := logins l1 db in
    let (r2, db2) := logins l2 db1 in (r1 ++ r2, db2).
Proof.
  revert db. induction l1 as [|[req now] l1 IH]; intros db; cbn.
  - run. destruct (logins l2 db). reflexivity.
  - run. destruct (login req now db) as [r db1]. rewrite IH.
    destruct (logins l1 db1) as [r1 db2]. destruct (logins l2 db2). reflexivity.
Qed.

(** Failures that stay below the threshold count up and do not lock. *)
Lemma logins_below_threshold (i : ObjectId) (reqs : list (Request * Z)) :
  ∀ (db : gmap positive User) (u : User),
    unique_email db → db !! i = Some u → isActive u = true → lockUntil u = None →
    attempts u + Z.of_nat (length reqs) < 5 →
    Forall (λ rt, wrong_password_for u rt.1) reqs →
    ∃ db' u',
      logins reqs db = (replicate (length reqs) invalid_credentials, db') ∧
      unique_email db' ∧ db' !! i = Some u' ∧
      attempts u' = attempts u + Z.of_nat (length reqs) ∧ lockUntil u' = None ∧
      isActive u' = true ∧ email u' = email u ∧ password u' = password u.
Proof.
  induction reqs as [|[req now] rest IH]; intros db u Huniq Hi Ha Hl Hn Hall.
  - exists db, u. cbn. repeat split; auto. lia.
  - apply Forall_cons in Hall as [Hreq Hrest]. cbn in Hreq, Hn.
    pose proof (login_wrong_password _ now _ _ _ Huniq Hi Hreq
                  (isLocked_no_lock i u now Hl) Ha) as Hstep.
    rewrite (incLoginAttempts_unlocked _ _ _ _ Hi Hl) in Hstep.
    rewrite bool_decide_eq_false_2 in Hstep by lia.
    set (u1 := set_lockUntil None (inc_loginAttempts 1 u)) in Hstep.
    destruct (IH (<[ i := u1 ]> db) u1) as (db' & u' & Hrun & Huniq' & Hi' & Hat & Hl' & Ha' & He' & Hp').
    + eapply unique_email_insert; eauto.
    + apply lookup_insert_eq.
    + exact Ha.
    + reflexivity.
    + change (attempts u1) with (attempts u + 1). lia.
    + eapply Forall_impl; [exact Hrest|]. intros rt.
      apply wrong_password_for_same_account; reflexivity.
    + exists db', u'. cbn. run. rewrite Hstep, Hrun.
      change (attempts u1) with (attempts u + 1) in Hat.
      repeat split; auto. lia.
Qed.

(** C1.  Take an account with no failure on record (the state after
    registration or after a successful login).  Fewer than five consecutive
    failed logins leave it unlocked; the fifth one, at time [t5], is still
    answered "Invalid credentials" and leaves [loginAttempts = 5] and
    [lockUntil = t5 + 2 hours]; and every login for that account at a time
    before [lockUntil] is answered 423 "Account temporarily locked", whatever
    password it carries, and changes nothing. *)
Theorem five_failures_lock_the_account
    (db : gmap positive User) (i : ObjectId) (u : User)
    (reqs : list (Request * Z)) (req5 : Request) (t5 : Z) :
  unique_email db → db !! i = Some u → isActive u = true →
  attempts u = 0 → lockUntil u = None →
  length reqs = 4%nat →
  Forall (λ rt, wrong_password_for u rt.1) (reqs ++ [(req5, t5)]) →
  (∀ k, (k ≤ 4)%nat →
     ∃ dbk uk,
       logins (take k reqs) db = (replicate k invalid_credentials, dbk) ∧
       dbk !! i = Some uk ∧ attempts uk = Z.of_nat k ∧ lockUntil uk = None) ∧
  ∃ db5 u5,
    logins (reqs ++ [(req5, t5)]) db = (replicate 5 invalid_credentials, db5) ∧
    db5 !! i = Some u5 ∧ attempts u5 = 5 ∧
    lockUntil u5 = Some (t5 + 2 * 60 * 60 * 1000) ∧
    ∀ req now, addresses u req → now < t5 + 2 * 60 * 60 * 1000 →
      login req now db5 = (account_locked, db5).
Proof.
  intros Huniq Hi Ha Hat Hl Hlen Hall.
  apply Forall_app in Hall as [Hall H5]. apply Forall_cons in H5 as [H5 _]. cbn in H5.
  split.
  - intros k Hk.
    destruct (logins_below_threshold i (take k reqs) db u) as
      (dbk & uk & Hrun & _ & Hik & Hatk & Hlk & _); auto.
    + rewrite length_take. lia.
    + apply Forall_take. exact Hall.
    + rewrite length_take, Hlen, Nat.min_l in * by lia.
      exists dbk, uk. repeat split; auto. lia.
  - destruct (logins_below_threshold i reqs db u) as
      (db4 & u4 & Hrun & Huniq4 & Hi4 & Hat4 & Hl4 & Ha4 & He4 & Hp4); auto.
    { rewrite Hlen. lia. }
    rewrite Hlen in Hrun, Hat4.
    pose proof (wrong_password_for_same_account u u4 req5 He4 Hp4 H5) as H5'.
    pose proof (login_wrong_password _ t5 _ _ _ Huniq4 Hi4 H5'
                  (isLocked_no_lock i u4 t5 Hl4) Ha4) as Hstep.
    rewrite (incLoginAttempts_unlocked _ _ _ _ Hi4 Hl4) in Hstep.
    rewrite bool_decide_eq_true_2 in Hstep by lia.
    set (u5 := set_lockUntil (Some (t5 + lock_duration)) (inc_loginAttempts 1 u4)) in Hstep.
    exists (<[ i := u5 ]> db4), u5. split; [|split; [|split; [|split]]].
    + rewrite logins_app, Hrun. cbn. run. rewrite Hstep. reflexivity.
    + apply lookup_insert_eq.
    + change (attempts u5) with (attempts u4 + 1). lia.
    + reflexivity.
    + intros req now (Hv & mail & Hm & He) Hnow.
      eapply login_locked.
      * eapply unique_email_insert; eauto.
      * apply lookup_insert_eq.
      * split; [done|]. exists mail. split; [done|]. cbn. congruence.
      * unfold isLocked. cbn. apply bool_decide_eq_true. unfold lock_duration. lia.
Qed.

(** The branches of [incLoginAttempts] on an account that is not locked: when
    the recorded [lockUntil] lies strictly before [now], [loginAttempts]
    becomes 1 and [lockUntil] is removed; otherwise [loginAttempts] grows by
    exactly 1, and when the new count reaches 5 and no [lockUntil] is on
    record, [lockUntil] becomes [now] + 2 hours. *)
Theorem failed_attempt_policy
    (db : gmap positive User) (i : ObjectId) (u : User) (now : Z) :
  db !! i = Some u → isLocked {| _id := i; fields := u |} now = false →
  ∃ u', (incLoginAttempts {| _id := i; fields := u |} now db).2 !! i = Some u' ∧
    (lock_in_the_past u now → loginAttempts u' = Some 1 ∧ lockUntil u' = None) ∧
    (¬ lock_in_the_past u now →
       attempts u' = attempts u + 1 ∧
       (attempts u + 1 >= 5 → lockUntil u = None →
        lockUntil u' = Some (now + 2 * 60 * 60 * 1000))).
Proof.
  intros Hi _. unfold incLoginAttempts, updateOne, lock_in_the_past. cbn.
  destruct (lockUntil u) as [lock|] eqn:Hl.
  - case_bool_decide as Hlt; cbn; rewrite lookup_alter_eq, Hi; cbn;
      eexists; (split; [reflexivity|]); split.
    + auto.
    + intros Hn. exfalso. apply Hn. eauto.
    + intros (l & [= <-] & Hl'). lia.
    + intros _. rewrite andb_false_r. cbn. split; [reflexivity|].
      intros _ [=].
  - rewrite andb_true_r. case_bool_decide as Hge; cbn;
      rewrite lookup_alter_eq, Hi; cbn;
      eexists; (split; [reflexivity|]); split.
    + intros (l & [=] & _).
    + intros _. cbn. split; [reflexivity|]. intros _ _. reflexivity.
    + intros (l & [=] & _).
    + intros _. cbn. split; [reflexivity|]. intros Hge'. lia.
Qed.

(** ** login: the success path *)

(** C3.  Every login that is answered 200 leaves the stored record of the
    user it found with [loginAttempts] reading 0, [lockUntil] removed and
    [lastLogin] set to the time of the login, whatever the two lockout fields
    held before. *)
Theorem successful_login_clears_lockout
    (req : Request) (now : Z) (db db' : gmap positive User) (r : Response) :
  login req now db = (r, db') → status r = 200 →
  ∃ mail d u',
    b_email (body req) = Some mail ∧ findByEmail mail db = (Some d, db) ∧
    db' !! _id d = Some u' ∧
    attempts u' = 0 ∧ lockUntil u' = None ∧ lastLogin u' = Some now.
Proof.
  unfold login. intros H Hs.
  destruct (bool_decide (validation_errors req = [])); cbn in H;
    [|injection H as <- <-; discriminate].
  destruct (b_email (body req)) as [mail|]; [|injection H as <- <-; discriminate].
  revert H. run.
  destruct (findByEmail mail db) as [[d|] db1] eqn:Hf;
    [|intros [= <- <-]; discriminate].
  apply findOne_Some in Hf as Hd. destruct Hd as (-> & Hd & _).
  destruct (isLocked d now); [intros [= <- <-]; discriminate|].
  destruct (isActive (fields d)); cbn; [|intros [= <- <-]; discriminate].
  destruct (b_password (body req)) as [pw|]; [|intros [= <- <-]; discriminate].
  destruct (comparePassword d pw); cbn.
  - unfold resetLoginAttempts, updateLastLogin, cleanupExpiredTokens,
      addRefreshToken, save, updateOne. run.
    intros [= <- <-]. exists mail, d. eexists. split; [reflexivity|].
    split; [exact Hf|].
    rewrite !lookup_alter_eq, Hd. cbn. repeat split; reflexivity.
  - destruct (incLoginAttempts d now db) as [[] db2]. intros [= <- <-]. discriminate.
Qed.

(** ** The refresh-token registry *)

Lemma addRefreshToken_eq (this : Document) (tok : Token) (now : Z)
    (db : gmap positive User) :
  let pushed := refreshTokens (fields this)
                ++ [{| token := tok; createdAt := now; expiresAt := now + seven_days |}] in
  addRefreshToken this tok now db
  = (assign (set_refreshTokens (slice_last 5 pushed)) this,
     alter (set_refreshTokens (slice_last 5 pushed)) (_id this) db).
Proof.
  unfold addRefreshToken, save. run. case_bool_decide as Hlen; [reflexivity|].
  unfold slice_last.
  replace (length _ - 5)%nat with 0%nat by lia. reflexivity.
Qed.

Lemma slice_last_length {A} (n : nat) (l : list A) :
  (length (slice_last n l) ≤ n)%nat ∧
  ((n ≤ length l)%nat → length (slice_last n l) = n).
Proof. unfold slice_last. rewrite length_drop. lia. Qed.

Lemma registry_saved_alter (this : Document) (l : list RefreshTokenEntry)
    (db : gmap positive User) :
  registry_saved (assign (set_refreshTokens l) this)
    (alter (set_refreshTokens l) (_id this) db).
Proof.
  intros u. cbn. rewrite lookup_alter_eq.
  destruct (db !! _id this); cbn; [|discriminate]. intros [= <-]. reflexivity.
Qed.

Lemma addRefreshTokens_bounded (adds : list (Token * Z)) :
  ∀ (this : Document) (db : gmap positive User),
    (length (refreshTokens (fields this)) ≤ 5)%nat → registry_saved this db →
    (length (refreshTokens (fields (addRefreshTokens this adds db).1)) ≤ 5)%nat ∧
    registry_saved (addRefreshTokens this adds db).1 (addRefreshTokens this adds db).2 ∧
    _id (addRefreshTokens this adds db).1 = _id this.
Proof.
  induction adds as [|[tok now] rest IH]; intros this db Hlen Hsaved; cbn.
  - auto.
  - run. rewrite addRefreshToken_eq. cbn.
    edestruct IH as (H1 & H2 & H3); [|apply registry_saved_alter|].
    + cbn. apply slice_last_length.
    + split; [exact H1|]. split; [exact H2|]. exact H3.
Qed.

(** C4.  One [addRefreshToken] appends the new entry and keeps the last five
    entries of the result: the registry it leaves, in the document and in the
    store, is the appended list without its first [length - 5] entries, so
    the entries dropped are the earliest inserted and the survivors keep
    their order; it holds at most five entries, and exactly five when the
    appended list had more.  Hence after every non-empty run of additions,
    and after every run that starts from at most five entries, the registry
    holds at most five entries. *)
Theorem refresh_registry_keeps_the_five_newest
    (this : Document) (db : gmap positive User) :
  (∀ tok now,
     let pushed := refreshTokens (fields this)
                   ++ [{| token := tok; createdAt := now; expiresAt := now + seven_days |}] in
     let this' := (addRefreshToken this tok now db).1 in
     let db' := (addRefreshToken this tok now db).2 in
     let evicted := take (length pushed - 5) pushed in
     pushed = evicted ++ refreshTokens (fields this') ∧
     (length (refreshTokens (fields this')) ≤ 5)%nat ∧
     ((5 < length pushed)%nat → length (refreshTokens (fields this')) = 5%nat) ∧
     ((length pushed ≤ 5)%nat → evicted = []) ∧
     _id this' = _id this ∧
     ∀ u, db !! _id this = Some u →
          db' !! _id this = Some (set_refreshTokens (refreshTokens (fields this')) u)) ∧
  (∀ adds,
     adds ≠ [] ∨ (length (refreshTokens (fields this)) ≤ 5)%nat →
     let this' := (addRefreshTokens this adds db).1 in
     let db' := (addRefreshTokens this adds db).2 in
     (length (refreshTokens (fields this')) ≤ 5)%nat ∧
     (adds ≠ [] → ∀ u, db' !! _id this = Some u → (length (refreshTokens u) ≤ 5)%nat)).
Proof.
  split.
  - intros tok now. cbn zeta. rewrite addRefreshToken_eq. cbn.
    set (pushed := refreshTokens (fields this) ++ _).
    unfold slice_last. repeat split.
    + symmetry. apply take_drop.
    + rewrite length_drop. lia.
    + rewrite length_drop. lia.
    + intros Hle. replace (length pushed - 5)%nat with 0%nat by lia. reflexivity.
    + intros u Hu. rewrite lookup_alter_eq, Hu. reflexivity.
  - intros [|[tok now] rest] Hadds; cbn zeta.
    + destruct Hadds as [Hne|Hlen]; [done|]. cbn. split; [exact Hlen|]. done.
    + cbn. run. rewrite addRefreshToken_eq. cbn.
      edestruct (addRefreshTokens_bounded rest) as (Hlen & Hsaved & Hid);
        [|apply registry_saved_alter|].
      * cbn. apply slice_last_length.
      * split; [exact Hlen|]. intros _ u Hu. cbn in Hid.
        unfold registry_saved in Hsaved. rewrite Hid in Hsaved.
        rewrite (Hsaved _ Hu). exact Hlen.
Qed.

Lemma last_slice_last_snoc {A} (n : nat) (l : list A) (x : A) :
  (0 < n)%nat → last (slice_last n (l ++ [x])) = Some x.
Proof.
  intros Hn. unfold slice_last. rewrite length_app. cbn.
  rewrite drop_app_le by lia. apply last_snoc.
Qed.

(** The lifetime of a registry entry.  The entry that [addRefreshToken] stores
    for a token has [expiresAt = now + 7 days], a fixed duration, for every
    configured value of the refresh-token lifetime; the token minted by
    [generateRefreshToken] expires [JWT_REFRESH_EXPIRES_IN] seconds after its
    [iat]; and the stored [expiresAt] equals [now] plus the configured
    lifetime exactly when that lifetime is 7 days, its default. *)
Theorem registry_expiry_is_seven_days
    (this : Document) (tok : Token) (now : Z) (db : gmap positive User) :
  last (refreshTokens (fields (addRefreshToken this tok now db).1))
  = Some {| token := tok; createdAt := now;
            expiresAt := now + 7 * 24 * 60 * 60 * 1000 |} ∧
  (∃ j, generateRefreshToken this now = Signed j ∧
        jwt_exp j = jwt_iat j + JWT_REFRESH_EXPIRES_IN config) ∧
  (now + 7 * 24 * 60 * 60 * 1000 = now + 1000 * JWT_REFRESH_EXPIRES_IN config
   ↔ JWT_REFRESH_EXPIRES_IN config = 7 * 24 * 60 * 60).
Proof.
  split; [|split].
  - rewrite addRefreshToken_eq. cbn. apply last_slice_last_snoc. lia.
  - unfold generateRefreshToken, jwt_sign. eexists. split; reflexivity.
  - lia.
Qed.

(** ** register *)

(** C10.  Every registration that is answered 201 has inserted, under a new
    [_id], a record with [role = "user"], [isActive = true] and
    [isVerified = false], reports that role and that verification state,
    and touches no other record; and the answer and the resulting collection
    do not depend on the members of the body other than [fullName], [email]
    and [password]. *)
Theorem registration_assigns_default_role
    (req : Request) (now : Z) (oid : ObjectId) (db db' : gmap positive User)
    (r : Response) :
  register req now oid db = (r, db') → status r = 201 →
  (∃ u v,
     db !! oid = None ∧ db' !! oid = Some u ∧
     role u = "user" ∧ isActive u = true ∧ isVerified u = false ∧
     data_user r = Some v ∧ v_role v = "user" ∧ v_isVerified v = false ∧
     ∀ j, j ≠ oid → db' !! j = db !! j) ∧
  ∀ extra, register (with_extra extra req) now oid db = (r, db').
Proof.
  intros H Hs. split; [|intros extra; rewrite <- H; reflexivity].
  revert H. unfold register.
  destruct (bool_decide (validation_errors req = [])); cbn;
    [|intros [= <- <-]; discriminate].
  destruct (b_email (body req)) as [mail|]; [|intros [= <- <-]; discriminate].
  run. destruct (findOne _ db) as [[d|] db1] eqn:Hf;
    [intros [= <- <-]; discriminate|].
  assert (db1 = db) as ->.
  { unfold findOne in Hf. injection Hf as _ <-. reflexivity. }
  destruct (b_fullName (body req)) as [fn|]; [|intros [= <- <-]; discriminate].
  destruct (b_password (body req)) as [pw|]; [|intros [= <- <-]; discriminate].
  unfold save_new. destruct (validate _); run; [|intros [= <- <-]; discriminate].
  unfold insertOne. cbn.
  destruct (db !! oid) as [w|] eqn:Ho; cbn; [intros [= <- <-]; discriminate|].
  destruct (existsb _ _); cbn; [intros [= <- <-]; discriminate|].
  rewrite addRefreshToken_eq. cbn. intros [= <- <-].
  eexists _, _. split; [reflexivity|]. split.
  { rewrite lookup_alter_eq, lookup_insert_eq. reflexivity. }
  cbn. repeat split.
  intros j Hj. rewrite lookup_alter_ne, lookup_insert_ne by done. reflexivity.
Qed.

(** ** refreshToken and logoutAll *)

Lemma tokenExists_elem_of (tok : Token) (l : list RefreshTokenEntry) :
  existsb (λ t, bool_decide (token t = tok)) l = true ↔ tok ∈ tokens l.
Proof.
  unfold tokens. induction l as [|e l IH]; cbn.
  - split; [discriminate|]. intros H. apply elem_of_nil in H. done.
  - rewrite orb_true_iff, IH, elem_of_cons, bool_decide_eq_true. intuition congruence.
Qed.

Lemma jwt_verify_payload (t : Token) (secret : string) (now : Z) (p : JwtPayload) :
  jwt_verify t secret now = inr p → ∃ j, t = Signed j ∧ p = jwt_payload j.
Proof.
  unfold jwt_verify. destruct t as [j|]; [|discriminate].
  destruct (negb _); [discriminate|]. destruct (bool_decide _); [discriminate|].
  intros [= <-]. eauto.
Qed.

(** A refresh token names the user it was minted for. *)
Lemma generateRefreshToken_subject (this : Document) (now : Z) :
  token_subject (generateRefreshToken this now) = Some (_id this).
Proof. reflexivity. Qed.

(** Two refresh tokens minted for one user within one clock second are one
    and the same token. *)
Lemma generateRefreshToken_same_second (this this' : Document) (now now' : Z) :
  _id this = _id this' → now `div` 1000 = now' `div` 1000 →
  generateRefreshToken this now = generateRefreshToken this' now'.
Proof.
  intros Hid Hsec. unfold generateRefreshToken, jwt_sign. rewrite Hid, Hsec.
  reflexivity.
Qed.

(** A presented token that is in the registry of no user it could name is
    turned down with a 401, and nothing is written. *)
Lemma refreshToken_unregistered (req : Request) (now : Z) (db : gmap positive User)
    (tok : Token) :
  cookies_refreshToken req = Some tok →
  (∀ p u, jwt_verify tok (JWT_REFRESH_SECRET config) now = inr p →
          db !! payload_id p = Some u → tok ∉ tokens (refreshTokens u)) →
  ∃ r, refreshToken req now db = (r, db) ∧ status r = 401 ∧ success r = false ∧
       (verifies tok now = true →
        message r = "Invalid refresh token" ∨ message r = "User not found").
Proof.
  intros Hc Hno. unfold refreshToken, verifies. rewrite Hc.
  destruct (truthy tok) eqn:Ht; cbn.
  2:{ eexists. repeat split. destruct tok; [discriminate Ht|]. cbn. discriminate. }
  destruct (jwt_verify tok (JWT_REFRESH_SECRET config) now) as [e|p] eqn:Hv.
  { eexists. repeat split. discriminate. }
  unfold findById. run. destruct (db !! payload_id p) as [u|] eqn:Hu; cbn.
  2:{ eexists. repeat split. auto. }
  destruct (existsb _ _) eqn:He; cbn.
  { apply tokenExists_elem_of in He. exfalso. exact (Hno p u eq_refl Hu He). }
  eexists. repeat split. auto.
Qed.

(** X10.  Rotation, where the minted token is new.  A refresh exchange that is
    answered 200 presented a token [tok] that verifies, names a stored user
    and is in that user's registry: membership is necessary, a valid
    signature is not enough.  The exchange stores the newly minted token in
    that registry; and whenever the new token differs from [tok], [tok] is no
    longer in the registry and every later refresh that presents [tok] is
    answered 401 and writes nothing. *)
Theorem refresh_rotation_single_use
    (req : Request) (now : Z) (db db' : gmap positive User) (r : Response) :
  refreshToken req now db = (r, db') → status r = 200 →
  ∃ tok p u u',
    cookies_refreshToken req = Some tok ∧
    jwt_verify tok (JWT_REFRESH_SECRET config) now = inr p ∧
    db !! payload_id p = Some u ∧ tok ∈ tokens (refreshTokens u) ∧
    (let new := generateRefreshToken {| _id := payload_id p; fields := u |} now in
     refreshCookie r = refresh_cookie new ∧
     db' !! payload_id p = Some u' ∧ new ∈ tokens (refreshTokens u') ∧
     (new ≠ tok →
        (tok ∉ tokens (refreshTokens u')) ∧
        ∀ req' now', cookies_refreshToken req' = Some tok →
          ∃ r', refreshToken req' now' db' = (r', db') ∧
                status r' = 401 ∧ success r' = false)).
Proof.
  unfold refreshToken at 1. intros H Hs.
  destruct (cookies_refreshToken req) as [tok|] eqn:Hc;
    [|injection H as <- <-; discriminate].
  destruct (truthy tok); cbn in H; [|injection H as <- <-; discriminate].
  destruct (jwt_verify tok (JWT_REFRESH_SECRET config) now) as [e|p] eqn:Hv;
    [injection H as <- <-; discriminate|].
  revert H. unfold findById. run.
  destruct (db !! payload_id p) as [u|] eqn:Hu; cbn;
    [|intros [= <- <-]; discriminate].
  destruct (existsb _ _) eqn:He; cbn; [|intros [= <- <-]; discriminate].
  apply tokenExists_elem_of in He.
  unfold removeRefreshToken, save. run. rewrite addRefreshToken_eq. cbn.
  intros [= <- <-]. exists tok, p, u. eexists.
  split; [reflexivity|]. split; [exact Hv|]. split; [exact Hu|].
  split; [exact He|]. cbn zeta.
  set (new := generateRefreshToken _ now).
  split; [reflexivity|]. split.
  { rewrite !lookup_alter_eq, Hu. reflexivity. }
  cbn. set (kept := slice_last 5 _).
  assert (new ≠ tok → tok ∉ tokens kept) as Hgone.
  { intros Hne Hin. unfold tokens in Hin.
    apply list_elem_of_fmap in Hin as (e & -> & Hin).
    apply (subseteq_drop _ _ _) in Hin.
    apply elem_of_app in Hin as [Hin|Hin].
    - apply list_elem_of_filter in Hin as [Hin _]. apply Hin. reflexivity.
    - apply list_elem_of_singleton in Hin as ->. cbn in Hne. done. }
  split.
  { unfold tokens. eapply list_elem_of_fmap_2'.
    - eapply last_Some_elem_of. apply last_slice_last_snoc. lia.
    - reflexivity. }
  intros Hne. split; [exact (Hgone Hne)|].
  intros req' now' Hc'.
  match goal with
  | |- ∃ r', refreshToken _ _ ?d = _ ∧ _ =>
      destruct (refreshToken_unregistered req' now' d tok Hc')
        as (r' & Hr & Hst & Hsu & _); [|eauto]
  end.
  intros p' w Hv' Hw.
  apply jwt_verify_payload in Hv as (j & -> & ->).
  apply jwt_verify_payload in Hv' as (j' & [= <-] & ->).
  rewrite !lookup_alter_eq, Hu in Hw. injection Hw as <-. exact (Hgone Hne).
Qed.

(** C7.  [logoutAll] for a stored user answers 200 and leaves that user with
    an empty registry; after it, every refresh that presents a token issued
    for that user is answered 401 ("Invalid refresh token" when the token
    still verifies) and writes nothing. *)
Theorem logoutAll_revokes_every_refresh_token
    (req : Request) (db : gmap positive User) (i : ObjectId) (u : User) :
  req_user req = Some i → db !! i = Some u →
  ∃ r db' u',
    logoutAll req db = (r, db') ∧ status r = 200 ∧
    db' !! i = Some u' ∧ refreshTokens u' = [] ∧
    ∀ req' now tok,
      cookies_refreshToken req' = Some tok → token_subject tok = Some i →
      ∃ r', refreshToken req' now db' = (r', db') ∧
            status r' = 401 ∧ success r' = false ∧
            (verifies tok now = true →
             message r' = "Invalid refresh token").
Proof.
  intros Hr Hi. unfold logoutAll, findById, clearAllRefreshTokens, save.
  rewrite Hr. run. rewrite Hi. cbn.
  eexists _, _, _. split; [reflexivity|]. split; [reflexivity|].
  split; [rewrite lookup_alter_eq, Hi; reflexivity|]. split; [reflexivity|].
  intros req' now tok Hc Hsub.
  assert (∀ p w, jwt_verify tok (JWT_REFRESH_SECRET config) now = inr p →
                 alter (set_refreshTokens []) i db !! payload_id p = Some w →
                 payload_id p = i ∧ refreshTokens w = []) as Hown.
  { intros p w Hv Hw. apply jwt_verify_payload in Hv as (j & -> & ->).
    cbn in Hsub. injection Hsub as Hsub. rewrite Hsub in Hw |- *.
    rewrite lookup_alter_eq, Hi in Hw. injection Hw as <-. auto. }
  destruct (refreshToken_unregistered req' now (alter (set_refreshTokens []) i db) tok Hc)
    as (r' & Hrun & Hst & Hsu & Hmsg).
  { intros p w Hv Hw. destruct (Hown p w Hv Hw) as [_ ->]. apply not_elem_of_nil. }
  exists r'. repeat split; auto.
  intros Hok. destruct (Hmsg Hok) as [Hm|Hm]; [exact Hm|].
  exfalso. revert Hrun Hm. unfold refreshToken, findById. rewrite Hc.
  destruct (truthy tok); cbn; [|intros [= <-]; discriminate].
  destruct (jwt_verify tok (JWT_REFRESH_SECRET config) now) as [e|p] eqn:Hv;
    [intros [= <-]; discriminate|].
  run. apply jwt_verify_payload in Hv as (j & -> & ->).
  cbn in Hsub. injection Hsub as ->.
  rewrite lookup_alter_eq, Hi. cbn. intros [= <-]. discriminate.
Qed.

(** ** What a call may do to the collection *)

Lemma alter_stored (f : User → User) (i : ObjectId) (u : User) (db : gmap positive User) :
  db !! i = Some u → alter f i db = <[ i := f u ]> db.
Proof.
  intros Hi. apply map_eq. intros j. destruct (decide (i = j)) as [<-|Hne].
  - rewrite lookup_alter_eq, lookup_insert_eq, Hi. reflexivity.
  - rewrite lookup_alter_ne, lookup_insert_ne by done. reflexivity.
Qed.

Lemma session_update_refl (u : User) : session_update u u.
Proof. unfold session_update. repeat split; auto. Qed.

Lemma slice_last_5_bound {A} (l : list A) : (length (slice_last 5 l) ≤ 5)%nat.
Proof. apply slice_last_length. Qed.

Ltac no_lock :=
  match goal with
  | H : is_Some None |- _ => destruct H as [? H]; discriminate H
  end.

Ltac session :=
  unfold session_update, lock_counted, inc_loginAttempts, attempts; cbn;
  repeat split; auto; try (intros; no_lock).

Lemma incLoginAttempts_session (i : ObjectId) (u : User) (now : Z)
    (db : gmap positive User) :
  db !! i = Some u →
  ∃ u', (incLoginAttempts {| _id := i; fields := u |} now db).2 = <[ i := u' ]> db ∧
        session_update u u'.
Proof.
  intros Hi. unfold incLoginAttempts, updateOne. cbn.
  destruct (lockUntil u) as [lock|] eqn:Hl.
  - case_bool_decide; cbn; rewrite (alter_stored _ _ _ _ Hi); eexists;
      (split; [reflexivity|]).
    + session.
    + rewrite andb_false_r. session. rewrite Hl.
      intros Hc Hs. specialize (Hc Hs). destruct (loginAttempts u); cbn in *; lia.
  - rewrite andb_true_r. case_bool_decide as Hge; cbn;
      rewrite (alter_stored _ _ _ _ Hi); eexists; (split; [reflexivity|]).
    + session.
    + session. rewrite Hl. intros; no_lock.
Qed.

Lemma login_transition (req : Request) (now : Z) (db db' : gmap positive User)
    (r : Response) :
  login req now db = (r, db') → transition db db'.
Proof.
  unfold login.
  destruct (bool_decide (validation_errors req = [])); cbn;
    [|intros [= <- <-]; constructor].
  destruct (b_email (body req)) as [mail|]; [|intros [= <- <-]; constructor].
  run. destruct (findByEmail mail db) as [[[i u]|] db1] eqn:Hf.
  2:{ intros [= <- <-]. unfold findByEmail, findOne in Hf. injection Hf as _ <-.
      constructor. }
  apply findOne_Some in Hf as (-> & Hd & _). cbn in Hd.
  destruct (isLocked _ now); [intros [= <- <-]; constructor|].
  cbn. destruct (isActive u); cbn; [|intros [= <- <-]; constructor].
  destruct (b_password (body req)) as [pw|]; [|intros [= <- <-]; constructor].
  destruct (comparePassword _ pw); cbn.
  - unfold resetLoginAttempts, updateLastLogin, cleanupExpiredTokens,
      addRefreshToken, save, updateOne. run.
    intros [= <- <-].
    rewrite (alter_stored _ _ _ _ Hd), !alter_insert_eq.
    eapply transition_update; [exact Hd|].
    session.
    intros _. case_bool_decide; [apply slice_last_5_bound | lia].
  - destruct (incLoginAttempts_session i u now db Hd) as (u' & Hu' & Hs).
    destruct (incLoginAttempts _ now db) as [[] db2]. cbn in Hu'. subst db2.
    intros [= <- <-]. eapply transition_update; eauto.
Qed.

Lemma filter_registry_session (P : RefreshTokenEntry → Prop)
    `{!∀ t, Decision (P t)} (u : User) :
  session_update u (set_refreshTokens (filter P (refreshTokens u)) u).
Proof.
  session. intros Hlen. pose proof (length_filter P (refreshTokens u)). lia.
Qed.

Lemma refreshToken_transition (req : Request) (now : Z) (db db' : gmap positive User)
    (r : Response) :
  refreshToken req now db = (r, db') → transition db db'.
Proof.
  unfold refreshToken.
  destruct (cookies_refreshToken req) as [tok|]; [|intros [= <- <-]; constructor].
  destruct (truthy tok); cbn; [|intros [= <- <-]; constructor].
  destruct (jwt_verify tok (JWT_REFRESH_SECRET config) now) as [e|p];
    [intros [= <- <-]; constructor|].
  unfold findById. run.
  destruct (db !! payload_id p) as [u|] eqn:Hu; cbn; [|intros [= <- <-]; constructor].
  destruct (existsb _ _); cbn; [|intros [= <- <-]; constructor].
  unfold removeRefreshToken, save. run. rewrite addRefreshToken_eq. cbn.
  intros [= <- <-].
  rewrite (alter_stored _ _ _ _ Hu), !alter_insert_eq.
  eapply transition_update; [exact Hu|].
  session. intros _. apply slice_last_5_bound.
Qed.

Lemma logout_transition (req : Request) (db db' : gmap positive User) (r : Response) :
  logout req db = (r, db') → transition db db'.
Proof.
  unfold logout.
  destruct (cookies_refreshToken req) as [tok|]; [|intros [= <- <-]; constructor].
  destruct (req_user req) as [userId|]; [|intros [= <- <-]; constructor].
  destruct (truthy tok); run; [|intros [= <- <-]; constructor].
  unfold findById. cbn.
  destruct (db !! userId) as [u|] eqn:Hu; cbn; [|intros [= <- <-]; constructor].
  unfold removeRefreshToken, save. run. intros [= <- <-].
  rewrite (alter_stored _ _ _ _ Hu).
  eapply transition_update; [exact Hu|]. apply filter_registry_session.
Qed.

Lemma logoutAll_transition (req : Request) (db db' : gmap positive User) (r : Response) :
  logoutAll req db = (r, db') → transition db db'.
Proof.
  unfold logoutAll.
  destruct (req_user req) as [userId|]; [|intros [= <- <-]; constructor].
  unfold findById. run.
  destruct (db !! userId) as [u|] eqn:Hu; cbn; [|intros [= <- <-]; constructor].
  unfold clearAllRefreshTokens, save. run. intros [= <- <-].
  rewrite (alter_stored _ _ _ _ Hu).
  eapply transition_update; [exact Hu|]. session. cbn. lia.
Qed.

(** ** register: what it stores and what it refuses *)

Lemma findOne_found (p : User → bool) (db : gmap positive User) (i : ObjectId) (u : User) :
  db !! i = Some u → p u = true → ∃ d, findOne p db = (Some d, db).
Proof.
  intros Hi Hp. unfold findOne.
  destruct (List.find _ _) as [kv|] eqn:E; [eexists; reflexivity|].
  exfalso. pose proof (find_none _ _ E (i, u)) as E'. cbn in E'.
  rewrite Hp in E'. enough (true = false) by discriminate. apply E'.
  apply list_elem_of_In, elem_of_map_to_list. exact Hi.
Qed.

Lemma findOne_None_inv (p : User → bool) (db db' : gmap positive User) :
  findOne p db = (None, db') →
  db' = db ∧ ∀ i u, db !! i = Some u → p u = false.
Proof.
  intros H. assert (db' = db) as -> by (unfold findOne in H; congruence).
  split; [reflexivity|]. intros i u Hi.
  destruct (p u) eqn:Hp; [|reflexivity].
  destruct (findOne_found p db i u Hi Hp) as [d Hd]. congruence.
Qed.

Lemma existsb_email_false (mail : string) (db : gmap positive User) :
  existsb (λ kv : positive * User, bool_decide (email kv.2 = mail)) (map_to_list db)
  = false →
  ∀ j v, db !! j = Some v → email v ≠ mail.
Proof.
  intros H j v Hj Hv.
  assert (existsb (λ kv : positive * User, bool_decide (email kv.2 = mail))
            (map_to_list db) = true) as Ht; [|congruence].
  apply existsb_exists. exists (j, v). split.
  - apply list_elem_of_In, elem_of_map_to_list. exact Hj.
  - apply bool_decide_eq_true. exact Hv.
Qed.

Lemma existsb_email_none (mail : string) (db : gmap positive User) :
  (∀ j v, db !! j = Some v → email v ≠ mail) →
  existsb (λ kv : positive * User, bool_decide (email kv.2 = mail)) (map_to_list db)
  = false.
Proof.
  intros H. destruct (existsb _ _) eqn:E; [|reflexivity].
  apply existsb_exists in E as ([j v] & Hin & Hv). cbn in Hv.
  apply bool_decide_eq_true in Hv.
  apply list_elem_of_In, elem_of_map_to_list in Hin. cbn in Hin.
  exfalso. exact (H j v Hin Hv).
Qed.

(** The record that a registration stores. *)
Lemma register_cases (req : Request) (now : Z) (oid : ObjectId)
    (db db' : gmap positive User) (r : Response) :
  register req now oid db = (r, db') →
  (db' = db ∧ status r ≠ 201) ∨
  ∃ fn mail pw rounds,
    b_fullName (body req) = Some fn ∧ b_email (body req) = Some mail ∧
    b_password (body req) = Some pw ∧ db !! oid = None ∧
    (∀ j v, db !! j = Some v → email v ≠ trim (toLowerCase mail)) ∧
    status r = 201 ∧
    db' = <[ oid :=
              {| fullName := trim fn; email := trim (toLowerCase mail);
                 password := bcrypt_hash rounds pw; role := "user";
                 isActive := true; isVerified := false; lastLogin := None;
                 loginAttempts := Some 0; lockUntil := None;
                 refreshTokens :=
                   [{| token := jwt_sign (RefreshPayload oid "refresh")
                                  (JWT_REFRESH_SECRET config)
                                  (JWT_REFRESH_EXPIRES_IN config) now;
                       createdAt := now; expiresAt := now + seven_days |}] |} ]> db.
Proof.
  unfold register.
  destruct (bool_decide (validation_errors req = [])); cbn;
    [|intros [= <- <-]; left; split; [reflexivity|discriminate]].
  destruct (b_email (body req)) as [mail|];
    [|intros [= <- <-]; left; split; [reflexivity|discriminate]].
  run. destruct (findOne _ db) as [[d|] db1] eqn:Hf.
  { apply findOne_Some in Hf as (-> & _).
    intros [= <- <-]; left; split; [reflexivity|discriminate]. }
  apply findOne_None_inv in Hf as (-> & _).
  destruct (b_fullName (body req)) as [fn|];
    [|intros [= <- <-]; left; split; [reflexivity|discriminate]].
  destruct (b_password (body req)) as [pw|];
    [|intros [= <- <-]; left; split; [reflexivity|discriminate]].
  unfold save_new. destruct (validate _); run;
    [|intros [= <- <-]; left; split; [reflexivity|discriminate]].
  unfold insertOne. cbn.
  destruct (db !! oid) as [w|] eqn:Ho; cbn;
    [intros [= <- <-]; left; split; [reflexivity|discriminate]|].
  destruct (existsb _ _) eqn:He; cbn;
    [intros [= <- <-]; left; split; [reflexivity|discriminate]|].
  pose proof (existsb_email_false _ _ He) as He'. cbn in He'.
  rewrite toLowerCase_idemp in He'.
  rewrite addRefreshToken_eq. cbn. intros [= <- <-]. right.
  exists fn, mail, pw. eexists.
  split; [reflexivity|]. split; [reflexivity|]. split; [reflexivity|].
  split; [reflexivity|]. split; [exact He'|]. split; [reflexivity|].
  rewrite alter_insert_eq, toLowerCase_idemp. reflexivity.
Qed.

Lemma register_transition (req : Request) (now : Z) (oid : ObjectId)
    (db db' : gmap positive User) (r : Response) :
  register req now oid db = (r, db') → transition db db'.
Proof.
  intros H. apply register_cases in H as [[-> _]|H]; [constructor|].
  destruct H as (fn & mail & pw & rounds & _ & _ & _ & Ho & He & _ & ->).
  apply transition_insert; [exact Ho| |exact He].
  unfold new_account. cbn. repeat split; eauto.
Qed.

Lemma handle_transition (c : Call) (db db' : gmap positive User) (r : Response) :
  handle c db = (r, db') → transition db db'.
Proof.
  destruct c; cbn.
  - apply register_transition.
  - apply login_transition.
  - apply refreshToken_transition.
  - apply logout_transition.
  - apply logoutAll_transition.
Qed.

(** ** Invariants of the collection under any run of calls *)

Lemma serve_cons (c : Call) (cs : list Call) (db : gmap positive User) :
  serve (c :: cs) db
  = ((handle c db).1 :: (serve cs (handle c db).2).1, (serve cs (handle c db).2).2).
Proof.
  cbn. run. destruct (handle c db) as [r db1]. cbn.
  destruct (serve cs db1) as [rs db2]. reflexivity.
Qed.

Lemma handle_transition' (c : Call) (db : gmap positive User) :
  transition db (handle c db).2.
Proof.
  destruct (handle c db) as [r db'] eqn:E. exact (handle_transition _ _ _ _ E).
Qed.

Lemma transition_old (db db' : gmap positive User) (i : ObjectId) (u : User) :
  transition db db' → db !! i = Some u →
  ∃ u', db' !! i = Some u' ∧ session_update u u'.
Proof.
  intros [|j v v' Hj Hs|j v' Hj Hn He] Hi.
  - exists u. split; [exact Hi | apply session_update_refl].
  - destruct (decide (j = i)) as [->|Hne].
    + rewrite lookup_insert_eq. exists v'. split; [reflexivity|]. congruence.
    + rewrite lookup_insert_ne by done. exists u.
      split; [exact Hi | apply session_update_refl].
  - destruct (decide (j = i)) as [->|Hne]; [congruence|].
    rewrite lookup_insert_ne by done. exists u.
    split; [exact Hi | apply session_update_refl].
Qed.

Lemma transition_new (db db' : gmap positive User) (i : ObjectId) (u' : User) :
  transition db db' → db !! i = None → db' !! i = Some u' →
  new_account u' ∧ (∀ j v, db !! j = Some v → email v ≠ email u') ∧
  ∀ j, db !! j = None → is_Some (db' !! j) → j = i.
Proof.
  intros [|j v v' Hj Hs|j v' Hj Hn He] Hi Hi'.
  - congruence.
  - destruct (decide (j = i)) as [->|Hne]; [congruence|].
    rewrite lookup_insert_ne in Hi' by done. congruence.
  - destruct (decide (j = i)) as [->|Hne].
    + rewrite lookup_insert_eq in Hi'. injection Hi' as <-.
      split; [exact Hn|]. split; [exact He|].
      intros k Hk [w Hw]. destruct (decide (i = k)) as [->|Hne]; [reflexivity|].
      rewrite lookup_insert_ne in Hw by done. congruence.
    + rewrite lookup_insert_ne in Hi' by done. congruence.
Qed.

Lemma session_update_identity (u u' : User) :
  session_update u u' → same_identity u u'.
Proof. unfold session_update, same_identity. intuition. Qed.

Lemma same_identity_trans (u v w : User) :
  same_identity u v → same_identity v w → same_identity u w.
Proof. unfold same_identity. intuition congruence. Qed.

Lemma transition_unique_email (db db' : gmap positive User) :
  transition db db' → unique_email db → unique_email db'.
Proof.
  intros Ht Huniq i j u' v' Hi Hj Hmail.
  destruct (db !! i) as [u|] eqn:Ei, (db !! j) as [v|] eqn:Ej.
  - destruct (transition_old _ _ _ _ Ht Ei) as (u1 & Hu1 & Hs1).
    destruct (transition_old _ _ _ _ Ht Ej) as (v1 & Hv1 & Hs2).
    apply session_update_identity in Hs1 as (_ & E1 & _), Hs2 as (_ & E2 & _).
    eapply Huniq; eauto. congruence.
  - destruct (transition_old _ _ _ _ Ht Ei) as (u1 & Hu1 & Hs1).
    apply session_update_identity in Hs1 as (_ & E1 & _).
    destruct (transition_new _ _ _ _ Ht Ej Hj) as (_ & Hfresh & _).
    exfalso. apply (Hfresh _ _ Ei). congruence.
  - destruct (transition_old _ _ _ _ Ht Ej) as (v1 & Hv1 & Hs1).
    apply session_update_identity in Hs1 as (_ & E1 & _).
    destruct (transition_new _ _ _ _ Ht Ei Hi) as (_ & Hfresh & _).
    exfalso. apply (Hfresh _ _ Ej). congruence.
  - destruct (transition_new _ _ _ _ Ht Ei Hi) as (_ & _ & Hone).
    symmetry. apply Hone; [exact Ej | eauto].
Qed.

Lemma serve_invariant (P : gmap positive User → Prop) :
  (∀ db db', transition db db' → P db → P db') →
  ∀ cs db, P db → P (serve cs db).2.
Proof.
  intros Hstep cs. induction cs as [|c cs IH]; intros db Hdb; [exact Hdb|].
  rewrite serve_cons. cbn. apply IH. eapply Hstep; [apply handle_transition'|exact Hdb].
Qed.

(** X1.  No run of calls makes two users share an e-mail: a registration is the
    only call that adds a record, and it adds none whose e-mail is taken. *)
Theorem serve_keeps_emails_unique (cs : list Call) (db : gmap positive User) :
  unique_email db → unique_email (serve cs db).2.
Proof. apply serve_invariant. exact transition_unique_email. Qed.

Lemma serve_keeps_identity_aux (cs : list Call) (db : gmap positive User)
    (i : ObjectId) (u : User) :
  db !! i = Some u →
  ∃ u', (serve cs db).2 !! i = Some u' ∧ same_identity u u'.
Proof.
  revert db u. induction cs as [|c cs IH]; intros db u Hi.
  - exists u. split; [exact Hi|]. unfold same_identity. repeat split.
  - rewrite serve_cons. cbn.
    destruct (transition_old _ _ _ _ (handle_transition' c db) Hi) as (u1 & Hu1 & Hs).
    destruct (IH _ _ Hu1) as (u' & Hu' & Hid).
    exists u'. split; [exact Hu'|].
    eapply same_identity_trans; [apply session_update_identity; exact Hs | exact Hid].
Qed.

(** X2.  No run of calls deletes a user or changes a stored name, e-mail,
    password hash, role, activation or verification state. *)
Theorem serve_keeps_identity (cs : list Call) (db : gmap positive User)
    (i : ObjectId) (u : User) :
  db !! i = Some u →
  ∃ u', (serve cs db).2 !! i = Some u' ∧ same_identity u u'.
Proof. apply serve_keeps_identity_aux. Qed.

(** X3.  Every account that a run of calls creates has the role "user", is active
    and unverified, and stores a password that came out of [bcrypt.hash],
    however many calls follow its creation. *)
Theorem serve_creates_default_accounts (cs : list Call) (db : gmap positive User)
    (i : ObjectId) (u' : User) :
  db !! i = None → (serve cs db).2 !! i = Some u' →
  role u' = "user" ∧ isActive u' = true ∧ isVerified u' = false ∧
  ∃ rounds pw, password u' = bcrypt_hash rounds pw.
Proof.
  revert db. induction cs as [|c cs IH]; intros db Hi Hi'.
  - cbn in Hi'. congruence.
  - rewrite serve_cons in Hi'. cbn in Hi'.
    destruct ((handle c db).2 !! i) as [u1|] eqn:E1; [|eapply IH; eauto].
    destruct (transition_new _ _ _ _ (handle_transition' c db) Hi E1)
      as ((Hr & Ha & Hv & (rounds & pw & Hp) & _) & _).
    destruct (serve_keeps_identity_aux cs _ _ _ E1) as (u2 & Hu2 & Hid).
    rewrite Hu2 in Hi'. injection Hi' as <-.
    destruct Hid as (_ & _ & Ep & Er & Eact & Ever).
    repeat split; try congruence. exists rounds, pw. congruence.
Qed.

Lemma transition_registry_bounded (db db' : gmap positive User) :
  transition db db' → registry_bounded db → registry_bounded db'.
Proof.
  intros Ht Hb i u' Hi'. destruct (db !! i) as [u|] eqn:Ei.
  - destruct (transition_old _ _ _ _ Ht Ei) as (u1 & Hu1 & Hs).
    rewrite Hu1 in Hi'. injection Hi' as <-.
    destruct Hs as (_ & _ & _ & _ & _ & _ & Hlen & _). apply Hlen. eauto.
  - destruct (transition_new _ _ _ _ Ht Ei Hi') as ((_ & _ & _ & _ & _ & _ & Hlen) & _).
    rewrite Hlen. lia.
Qed.

Lemma transition_locks_counted (db db' : gmap positive User) :
  transition db db' → locks_counted db → locks_counted db'.
Proof.
  intros Ht Hb i u' Hi'. destruct (db !! i) as [u|] eqn:Ei.
  - destruct (transition_old _ _ _ _ Ht Ei) as (u1 & Hu1 & Hs).
    rewrite Hu1 in Hi'. injection Hi' as <-.
    destruct Hs as (_ & _ & _ & _ & _ & _ & _ & Hlock). apply Hlock. eauto.
  - destruct (transition_new _ _ _ _ Ht Ei Hi') as ((_ & _ & _ & _ & _ & Hl & _) & _).
    intros [x Hx]. congruence.
Qed.

(** X4.  No run of calls lets a registry grow past five entries: where every
    stored registry holds at most five tokens before, every one does after. *)
Theorem serve_keeps_registries_bounded (cs : list Call) (db : gmap positive User) :
  registry_bounded db → registry_bounded (serve cs db).2.
Proof. apply serve_invariant. exact transition_registry_bounded. Qed.

(** X5.  A lock is only ever on record together with at least five counted
    failures: where that holds of every stored user before a run of calls,
    it holds after. *)
Theorem serve_keeps_locks_counted (cs : list Call) (db : gmap positive User) :
  locks_counted db → locks_counted (serve cs db).2.
Proof. apply serve_invariant. exact transition_locks_counted. Qed.

(** ** login: acceptance and refusal *)

(** What a login with the right password does. *)
Lemma login_success (req : Request) (now : Z) (db : gmap positive User)
    (i : ObjectId) (u : User) (pw : string) :
  unique_email db → db !! i = Some u → addresses u req →
  isLocked {| _id := i; fields := u |} now = false → isActive u = true →
  b_password (body req) = Some pw → bcrypt_compare pw (password u) = true →
  let this := {| _id := i; fields := u |} in
  let registry :=
    slice_last 5
      (filter (λ t, expiresAt t > now) (refreshTokens u)
       ++ [{| token := generateRefreshToken this now; createdAt := now;
              expiresAt := now + seven_days |}]) in
  login req now db
  = ({| status := 200; success := true; message := "Login successful"; errors := [];
        data_user :=
          Some {| v_id := i; v_fullName := fullName u; v_email := email u;
                  v_role := role u; v_isVerified := isVerified u;
                  v_lastLogin := Some now |};
        data_accessToken := Some (generateAccessToken this now);
        refreshCookie := refresh_cookie (generateRefreshToken this now) |},
     <[ i := set_refreshTokens registry
               (set_lastLogin (Some now)
                  (set_loginAttempts None (set_lockUntil None u))) ]> db).
Proof.
  intros Huniq Hi (Hv & mail & Hm & He) Hl Ha Hp Hc. cbn zeta.
  unfold login. rewrite Hv, Hm. run.
  rewrite (findByEmail_lookup _ _ _ _ Huniq Hi He), Hl. cbn.
  rewrite Ha, Hp. unfold comparePassword. cbn. rewrite Hc. cbn.
  unfold resetLoginAttempts, updateLastLogin, cleanupExpiredTokens, save, updateOne.
  run. rewrite addRefreshToken_eq. cbn.
  rewrite (alter_stored _ _ _ _ Hi), !alter_insert_eq. reflexivity.
Qed.

(** X6.  A login with the right password for an existing, active account that is
    not locked (never locked, or locked until a time that has passed) is
    answered 200.  The cookie carries the refresh token minted for the
    account at that time, the body its access token; that refresh token is
    stored as the newest entry of the account's registry, after the entries
    that have expired were dropped; the lockout fields are cleared; and no
    other record is touched. *)
Theorem login_accepts_right_password (req : Request) (now : Z)
    (db : gmap positive User) (i : ObjectId) (u : User) (pw : string) :
  unique_email db → db !! i = Some u → addresses u req →
  isLocked {| _id := i; fields := u |} now = false → isActive u = true →
  b_password (body req) = Some pw → bcrypt_compare pw (password u) = true →
  ∃ r db' u',
    login req now db = (r, db') ∧ status r = 200 ∧
    refreshCookie r
    = refresh_cookie (generateRefreshToken {| _id := i; fields := u |} now) ∧
    data_accessToken r
    = Some (generateAccessToken {| _id := i; fields := u |} now) ∧
    db' !! i = Some u' ∧
    last (refreshTokens u')
    = Some {| token := generateRefreshToken {| _id := i; fields := u |} now;
              createdAt := now; expiresAt := now + seven_days |} ∧
    (∀ e, e ∈ refreshTokens u' → e ∈ refreshTokens u → expiresAt e > now) ∧
    attempts u' = 0 ∧ lockUntil u' = None ∧
    ∀ j, j ≠ i → db' !! j = db !! j.
Proof.
  intros Huniq Hi Hreq Hl Ha Hp Hc.
  pose proof (login_success req now db i u pw Huniq Hi Hreq Hl Ha Hp Hc) as H.
  cbn zeta in H. eexists _, _, _. split; [exact H|].
  split; [reflexivity|]. split; [reflexivity|]. split; [reflexivity|].
  split; [apply lookup_insert_eq|]. cbn.
  split; [apply last_slice_last_snoc; lia|].
  split.
  { intros e He Hold. apply (subseteq_drop _ _ _) in He.
    apply elem_of_app in He as [He|He].
    - apply list_elem_of_filter in He as [He _]. exact He.
    - apply list_elem_of_singleton in He as ->. cbn. unfold seven_days. lia. }
  split; [reflexivity|]. split; [reflexivity|].
  intros j Hj. rewrite lookup_insert_ne by done. reflexivity.
Qed.

(** X7.  A login for a deactivated account that is not locked is answered 403
    "Account is deactivated" whatever password it carries: the password is
    not compared, no failure is counted and nothing is written. *)
Theorem login_deactivated_account (req : Request) (now : Z)
    (db : gmap positive User) (i : ObjectId) (u : User) :
  unique_email db → db !! i = Some u → addresses u req →
  isLocked {| _id := i; fields := u |} now = false → isActive u = false →
  login req now db = (failure 403 "Account is deactivated", db).
Proof.
  intros Huniq Hi (Hv & mail & Hm & He) Hl Ha.
  unfold login. rewrite Hv, Hm. run.
  rewrite (findByEmail_lookup _ _ _ _ Huniq Hi He), Hl. cbn.
  rewrite Ha. reflexivity.
Qed.

(** ** Refusals *)

Ltac refused := intros [= <- <-] Hs; solve [auto | discriminate Hs].

Lemma register_refused (req : Request) (now : Z) (oid : ObjectId)
    (db db' : gmap positive User) (r : Response) :
  register req now oid db = (r, db') → success r = false → db' = db.
Proof.
  unfold register.
  destruct (bool_decide (validation_errors req = [])); cbn; [|refused].
  destruct (b_email (body req)) as [mail|]; [|refused].
  run. destruct (findOne _ db) as [[d|] db1] eqn:Hf.
  { apply findOne_Some in Hf as (-> & _). refused. }
  apply findOne_None_inv in Hf as (-> & _).
  destruct (b_fullName (body req)) as [fn|]; [|refused].
  destruct (b_password (body req)) as [pw|]; [|refused].
  unfold save_new. destruct (validate _); run; [|refused].
  unfold insertOne. cbn.
  destruct (db !! oid) as [w|] eqn:Ho; cbn; [refused|].
  destruct (existsb _ _) eqn:He; cbn; [refused|].
  rewrite addRefreshToken_eq. cbn. refused.
Qed.

Lemma login_refused (req : Request) (now : Z) (db db' : gmap positive User)
    (r : Response) :
  login req now db = (r, db') → success r = false →
  db' = db ∨ r = invalid_credentials.
Proof.
  unfold login.
  destruct (bool_decide (validation_errors req = [])); cbn; [|refused].
  destruct (b_email (body req)) as [mail|]; [|refused].
  run. destruct (findByEmail mail db) as [[d|] db1] eqn:Hf.
  2:{ unfold findByEmail in Hf. apply findOne_None_inv in Hf as (-> & _). refused. }
  apply findOne_Some in Hf as (-> & _).
  destruct (isLocked _ now); [refused|].
  destruct (isActive (fields d)); cbn; [|refused].
  destruct (b_password (body req)) as [pw|]; [|refused].
  destruct (comparePassword _ pw); cbn.
  - unfold resetLoginAttempts, updateLastLogin, cleanupExpiredTokens,
      addRefreshToken, save, updateOne. run. refused.
  - destruct (incLoginAttempts _ now db) as [[] db2]. intros [= <- <-] _. auto.
Qed.

Lemma refreshToken_refused (req : Request) (now : Z) (db db' : gmap positive User)
    (r : Response) :
  refreshToken req now db = (r, db') → success r = false → db' = db.
Proof.
  unfold refreshToken.
  destruct (cookies_refreshToken req) as [tok|]; [|refused].
  destruct (truthy tok); cbn; [|refused].
  destruct (jwt_verify tok (JWT_REFRESH_SECRET config) now) as [e|p]; [refused|].
  unfold findById. run.
  destruct (db !! payload_id p) as [u|] eqn:Hu; cbn; [|refused].
  destruct (existsb _ _); cbn; [|refused].
  unfold removeRefreshToken, save. run. rewrite addRefreshToken_eq. cbn. refused.
Qed.

Lemma logout_succeeds (req : Request) (db : gmap positive User) :
  (logout req db).1 = logout_ok.
Proof.
  unfold logout.
  destruct (cookies_refreshToken req) as [tok|]; [|reflexivity].
  destruct (req_user req) as [userId|]; [|reflexivity].
  destruct (truthy tok); run; [|reflexivity].
  unfold findById. cbn. destruct (db !! userId); reflexivity.
Qed.

Lemma logoutAll_refused (req : Request) (db db' : gmap positive User) (r : Response) :
  logoutAll req db = (r, db') → success r = false → db' = db.
Proof.
  unfold logoutAll.
  destruct (req_user req) as [userId|]; [|refused].
  unfold findById. run.
  destruct (db !! userId) as [u|] eqn:Hu; cbn; refused.
Qed.

(** X9.  A call that is refused ([success: false]) writes nothing, with one
    exception: a login answered "Invalid credentials", which counts the
    failed attempt. *)
Theorem refused_calls_write_nothing (c : Call) (db db' : gmap positive User)
    (r : Response) :
  handle c db = (r, db') → success r = false →
  db' = db ∨ ∃ req now, c = CallLogin req now ∧ r = invalid_credentials.
Proof.
  destruct c as [req now oid|req now|req now|req|req]; cbn; intros H Hs.
  - left. eapply register_refused; eauto.
  - destruct (login_refused _ _ _ _ _ H Hs) as [->| ->]; [auto|]. right. eauto.
  - left. eapply refreshToken_refused; eauto.
  - pose proof (logout_succeeds req db) as Hok. rewrite H in Hok. cbn in Hok.
    subst r. discriminate Hs.
  - left. eapply logoutAll_refused; eauto.
Qed.

(** ** refreshToken: what an exchange changes *)

Lemma refreshToken_success (req : Request) (now : Z) (db : gmap positive User)
    (tok : Token) (p : JwtPayload) (u : User) :
  cookies_refreshToken req = Some tok →
  jwt_verify tok (JWT_REFRESH_SECRET config) now = inr p →
  db !! payload_id p = Some u → tok ∈ tokens (refreshTokens u) →
  let this := {| _id := payload_id p; fields := u |} in
  refreshToken req now db
  = ({| status := 200; success := true; message := "Token refreshed successfully";
        errors := []; data_user := None;
        data_accessToken := Some (generateAccessToken this now);
        refreshCookie := refresh_cookie (generateRefreshToken this now) |},
     <[ payload_id p :=
          set_refreshTokens
            (slice_last 5
               (filter (λ t, token t ≠ tok) (refreshTokens u)
                ++ [{| token := generateRefreshToken this now; createdAt := now;
                       expiresAt := now + seven_days |}])) u ]> db).
Proof.
  intros Hc Hv Hu Hin. cbn zeta. unfold refreshToken. rewrite Hc.
  apply jwt_verify_payload in Hv as Hj. destruct Hj as (j & -> & ->).
  cbn. rewrite Hv. unfold findById. run. rewrite Hu. cbn.
  apply tokenExists_elem_of in Hin. rewrite Hin. cbn.
  unfold removeRefreshToken, save. run. rewrite addRefreshToken_eq. cbn.
  rewrite (alter_stored _ _ _ _ Hu), alter_insert_eq. reflexivity.
Qed.

Lemma refreshToken_accepted (req : Request) (now : Z) (db db' : gmap positive User)
    (r : Response) :
  refreshToken req now db = (r, db') → status r = 200 →
  ∃ tok p u,
    cookies_refreshToken req = Some tok ∧
    jwt_verify tok (JWT_REFRESH_SECRET config) now = inr p ∧
    db !! payload_id p = Some u ∧ tok ∈ tokens (refreshTokens u).
Proof.
  unfold refreshToken. intros H Hs.
  destruct (cookies_refreshToken req) as [tok|] eqn:Hc;
    [|injection H as <- <-; discriminate].
  destruct (truthy tok); cbn in H; [|injection H as <- <-; discriminate].
  destruct (jwt_verify tok (JWT_REFRESH_SECRET config) now) as [e|p] eqn:Hv;
    [injection H as <- <-; discriminate|].
  revert H. unfold findById. run.
  destruct (db !! payload_id p) as [u|] eqn:Hu; cbn;
    [|intros [= <- <-]; discriminate].
  destruct (existsb _ _) eqn:He; cbn; [|intros [= <- <-]; discriminate].
  apply tokenExists_elem_of in He. intros _. eauto 10.
Qed.

(** X11.  An exchange that is answered 200 rewrites the registry of the user
    the token names: that user's name, e-mail, password hash, role,
    activation and verification state, last login, lock and count of failed
    attempts (as [attempts] reads it) are as before, and so is every other
    user; the registry does not grow; and each of its entries is the newly
    stored one or an earlier entry for a token other than the presented
    one. *)
Theorem refresh_rewrites_one_registry
    (req : Request) (now : Z) (db db' : gmap positive User) (r : Response) :
  refreshToken req now db = (r, db') → status r = 200 →
  ∃ tok p u u',
    cookies_refreshToken req = Some tok ∧
    jwt_verify tok (JWT_REFRESH_SECRET config) now = inr p ∧
    db !! payload_id p = Some u ∧ db' !! payload_id p = Some u' ∧
    same_identity u u' ∧ lastLogin u' = lastLogin u ∧
    lockUntil u' = lockUntil u ∧ attempts u' = attempts u ∧
    (length (refreshTokens u') ≤ length (refreshTokens u))%nat ∧
    (∀ e, e ∈ refreshTokens u' →
       e = {| token := generateRefreshToken {| _id := payload_id p; fields := u |} now;
              createdAt := now; expiresAt := now + seven_days |}
       ∨ (e ∈ refreshTokens u ∧ token e ≠ tok)) ∧
    ∀ j, j ≠ payload_id p → db' !! j = db !! j.
Proof.
  intros H Hs.
  destruct (refreshToken_accepted _ _ _ _ _ H Hs) as (tok & p & u & Hc & Hv & Hu & Hin).
  pose proof (refreshToken_success req now db tok p u Hc Hv Hu Hin) as E.
  cbn zeta in E. rewrite E in H. injection H as <- <-.
  exists tok, p, u. eexists.
  split; [exact Hc|]. split; [exact Hv|]. split; [exact Hu|].
  split; [apply lookup_insert_eq|]. cbn.
  split; [repeat split|]. split; [reflexivity|].
  split; [reflexivity|]. split; [reflexivity|].
  split.
  { pose proof (slice_last_length 5
                  (filter (λ t, token t ≠ tok) (refreshTokens u)
                   ++ [{| token := generateRefreshToken
                                     {| _id := payload_id p; fields := u |} now;
                          createdAt := now; expiresAt := now + seven_days |}]))
      as [Hle _].
    unfold slice_last in *. rewrite length_drop, length_app in *. cbn in *.
    unfold tokens in Hin. apply list_elem_of_fmap in Hin as (e & -> & Hin).
    assert (¬ token e ≠ token e) as Hn by (intros Hn; exact (Hn eq_refl)).
    pose proof (length_filter_lt (λ t, token t ≠ token e) _ e Hin Hn). lia. }
  split.
  { intros e He. apply (subseteq_drop _ _ _) in He.
    apply elem_of_app in He as [He|He].
    - right. apply list_elem_of_filter in He as [Hne He]. auto.
    - left. apply list_elem_of_singleton in He. exact He. }
  intros j Hj. rewrite lookup_insert_ne by done. reflexivity.
Qed.

(** X12.  An access token is no refresh token: where the two signing secrets
    differ, a refresh that presents an access token of this service is
    answered 401 "Invalid or expired refresh token" and writes nothing. *)
Theorem access_token_is_no_refresh_token
    (this : Document) (issued now : Z) (req : Request) (db : gmap positive User) :
  JWT_SECRET config ≠ JWT_REFRESH_SECRET config →
  cookies_refreshToken req = Some (generateAccessToken this issued) →
  refreshToken req now db = (failure 401 "Invalid or expired refresh token", db).
Proof.
  intros Hne Hc. unfold refreshToken. rewrite Hc.
  unfold generateAccessToken, jwt_sign, jwt_verify. cbn.
  rewrite bool_decide_eq_false_2 by exact Hne. reflexivity.
Qed.

(** X13.  The refresh token handed out by a login is exchangeable exactly until
    its own [exp]: presented to [refreshToken] right after the login, it is
    answered 200 at every time whose clock second lies before the second
    of the login plus the configured lifetime, and 401 "Invalid or expired
    refresh token" from then on, with nothing written. *)
Theorem login_token_is_refreshable_until_exp
    (req : Request) (now : Z) (db : gmap positive User) (i : ObjectId) (u : User)
    (pw : string) (req' : Request) (now' : Z) :
  unique_email db → db !! i = Some u → addresses u req →
  isLocked {| _id := i; fields := u |} now = false → isActive u = true →
  b_password (body req) = Some pw → bcrypt_compare pw (password u) = true →
  cookies_refreshToken req' = Some (generateRefreshToken {| _id := i; fields := u |} now) →
  let db' := (login req now db).2 in
  (now' `div` 1000 < now `div` 1000 + JWT_REFRESH_EXPIRES_IN config →
   status (refreshToken req' now' db').1 = 200) ∧
  (now `div` 1000 + JWT_REFRESH_EXPIRES_IN config ≤ now' `div` 1000 →
   refreshToken req' now' db'
   = (failure 401 "Invalid or expired refresh token", db')).
Proof.
  intros Huniq Hi Hreq Hl Ha Hp Hc Hcookie.
  pose proof (login_success req now db i u pw Huniq Hi Hreq Hl Ha Hp Hc) as H.
  cbn zeta in *. rewrite H. cbn. split.
  - intros Hlive.
    erewrite (refreshToken_success req' now' _ _ (RefreshPayload i "refresh"));
      [reflexivity|exact Hcookie| |apply lookup_insert_eq|].
    + unfold generateRefreshToken, jwt_sign, jwt_verify. cbn.
      rewrite bool_decide_eq_true_2 by reflexivity. cbn.
      rewrite bool_decide_eq_false_2 by lia. reflexivity.
    + cbn. unfold tokens. eapply list_elem_of_fmap_2'.
      * eapply last_Some_elem_of. apply last_slice_last_snoc. lia.
      * reflexivity.
  - intros Hdead. unfold refreshToken. rewrite Hcookie.
    unfold generateRefreshToken, jwt_sign, jwt_verify. cbn.
    rewrite bool_decide_eq_true_2 by reflexivity. cbn.
    rewrite bool_decide_eq_true_2 by lia. reflexivity.
Qed.

(** ** logout and logoutAll with an identity *)

Lemma logout_authenticated (req : Request) (db : gmap positive User)
    (i : ObjectId) (u : User) (tok : Token) :
  req_user req = Some i → cookies_refreshToken req = Some tok → truthy tok = true →
  db !! i = Some u →
  logout req db
  = (logout_ok,
     <[ i := set_refreshTokens (filter (λ t, token t ≠ tok) (refreshTokens u)) u ]> db).
Proof.
  intros Hr Hc Ht Hu. unfold logout. rewrite Hc, Hr, Ht. run.
  unfold findById. cbn. rewrite Hu. cbn. unfold removeRefreshToken, save. run.
  rewrite (alter_stored _ _ _ _ Hu). reflexivity.
Qed.

Lemma not_in_filtered_tokens (tok : Token) (l : list RefreshTokenEntry) :
  tok ∉ tokens (filter (λ t, token t ≠ tok) l).
Proof.
  unfold tokens. intros Hin. apply list_elem_of_fmap in Hin as (e & -> & Hin).
  apply list_elem_of_filter in Hin as [Hne _]. exact (Hne eq_refl).
Qed.

(** X14.  A logout that carries the identity of a stored user and a token removes
    every entry for that token from that user's registry, keeps the other
    entries in their order and every other record as it was, and answers
    200; a later refresh that presents the token, if the token names that
    user, is answered 401 and writes nothing. *)
Theorem logout_revokes_the_presented_token
    (req : Request) (db : gmap positive User) (i : ObjectId) (u : User) (tok : Token) :
  req_user req = Some i → cookies_refreshToken req = Some tok → truthy tok = true →
  db !! i = Some u →
  ∃ db' u',
    logout req db = (logout_ok, db') ∧ db' !! i = Some u' ∧
    refreshTokens u' = filter (λ t, token t ≠ tok) (refreshTokens u) ∧
    (tok ∉ tokens (refreshTokens u')) ∧
    (∀ j, j ≠ i → db' !! j = db !! j) ∧
    (token_subject tok = Some i →
     ∀ req' now, cookies_refreshToken req' = Some tok →
       ∃ r', refreshToken req' now db' = (r', db') ∧ status r' = 401).
Proof.
  intros Hr Hc Ht Hu. eexists _, _.
  split; [apply (logout_authenticated req db i u tok Hr Hc Ht Hu)|].
  split; [apply lookup_insert_eq|]. cbn.
  split; [reflexivity|]. split; [apply not_in_filtered_tokens|].
  split; [intros j Hj; rewrite lookup_insert_ne by done; reflexivity|].
  intros Hsub req' now Hc'.
  match goal with
  | |- ∃ r', refreshToken _ _ ?d = _ ∧ _ =>
      destruct (refreshToken_unregistered req' now d tok Hc')
        as (r' & Hrun & Hst & _); [|eauto]
  end.
  intros p w Hv Hw. apply jwt_verify_payload in Hv as (j & -> & ->).
  cbn in Hsub. injection Hsub as Hsub. rewrite Hsub, lookup_insert_eq in Hw.
  injection Hw as <-. cbn. apply not_in_filtered_tokens.
Qed.

(** X15.  [logout] answers 200 "Logout successful" and clears the cookie on every
    request, and a second logout with the same request changes nothing
    more. *)
Theorem logout_always_succeeds_and_is_idempotent
    (req : Request) (db : gmap positive User) :
  (logout req db).1 = logout_ok ∧
  (logout req (logout req db).2).2 = (logout req db).2.
Proof.
  split; [apply logout_succeeds|].
  destruct (cookies_refreshToken req) as [tok|] eqn:Hc;
    [|unfold logout; rewrite Hc; reflexivity].
  destruct (req_user req) as [i|] eqn:Hr;
    [|unfold logout; rewrite Hc, Hr; reflexivity].
  destruct (truthy tok) eqn:Ht; [|unfold logout; rewrite Hc, Hr, Ht; reflexivity].
  destruct (db !! i) as [u|] eqn:Hu.
  - rewrite (logout_authenticated req db i u tok Hr Hc Ht Hu). cbn.
    erewrite logout_authenticated; [|exact Hr|exact Hc|exact Ht|apply lookup_insert_eq].
    cbn. rewrite insert_insert_eq. f_equal. unfold set_refreshTokens. cbn. f_equal.
    rewrite list_filter_filter. apply list_filter_iff. intros e. tauto.
  - unfold logout, findById. rewrite Hc, Hr, Ht. run. rewrite Hu. cbn.
    rewrite Hu. reflexivity.
Qed.

(** X16.  [logoutAll] is per user: a refresh that presents a token naming another
    user is answered after a [logoutAll] as it would have been before it. *)
Theorem logoutAll_spares_other_users
    (req : Request) (db : gmap positive User) (i : ObjectId)
    (req' : Request) (now : Z) (tok : Token) (j : ObjectId) :
  req_user req = Some i → cookies_refreshToken req' = Some tok →
  token_subject tok = Some j → j ≠ i →
  (refreshToken req' now (logoutAll req db).2).1 = (refreshToken req' now db).1.
Proof.
  intros Hr Hc Hsub Hne.
  assert (∀ k, k ≠ i → (logoutAll req db).2 !! k = db !! k) as Hframe.
  { intros k Hk. unfold logoutAll, findById, clearAllRefreshTokens, save.
    rewrite Hr. run. destruct (db !! i); cbn; [|reflexivity].
    rewrite lookup_alter_ne by done. reflexivity. }
  destruct tok as [t|]; [|discriminate Hsub]. cbn in Hsub. injection Hsub as Hsub.
  unfold refreshToken, findById. rewrite Hc. cbn.
  unfold jwt_verify.
  destruct (negb _); [reflexivity|]. destruct (bool_decide _); [reflexivity|].
  run. rewrite Hsub, (Hframe j Hne).
  destruct (db !! j) as [u|]; cbn; [|reflexivity].
  destruct (existsb _ _); cbn; [|reflexivity].
  unfold removeRefreshToken, save. run. rewrite !addRefreshToken_eq. reflexivity.
Qed.

(** ** register: acceptance, conflict and the way back in *)

Lemma register_success (req : Request) (now : Z) (oid : ObjectId)
    (db : gmap positive User) (fn mail pw : string) :
  registrable db req fn mail pw oid →
  ∃ rounds,
    let created :=
      {| _id := oid;
         fields := {| fullName := trim fn; email := trim (toLowerCase mail);
                      password := bcrypt_hash rounds pw; role := "user";
                      isActive := true; isVerified := false; lastLogin := None;
                      loginAttempts := Some 0; lockUntil := None;
                      refreshTokens := [] |} |} in
    register req now oid db
    = ({| status := 201; success := true; message := "User registered successfully";
          errors := [];
          data_user :=
            Some {| v_id := oid; v_fullName := trim fn;
                    v_email := trim (toLowerCase mail); v_role := "user";
                    v_isVerified := false; v_lastLogin := None |};
          data_accessToken := Some (generateAccessToken created now);
          refreshCookie := refresh_cookie (generateRefreshToken created now) |},
       <[ oid := set_refreshTokens
                   [{| token := generateRefreshToken created now; createdAt := now;
                       expiresAt := now + seven_days |}] (fields created) ]> db).
Proof.
  intros (Hv & Hfn & Hm & Hp & Htrim & Hval & Ho).
  eexists. cbn zeta. unfold register. rewrite Hv, Hm. run.
  rewrite (findOne_None (by_email (toLowerCase mail)) db)
    by (intros i u Hi; rewrite by_email_toLowerCase;
        apply bool_decide_eq_false; eauto).
  rewrite Hfn, Hp. unfold save_new. rewrite Hval. run.
  unfold insertOne. cbn. rewrite Ho. cbn.
  rewrite existsb_email_none by (rewrite toLowerCase_idemp; exact Htrim). cbn.
  rewrite addRefreshToken_eq. cbn. rewrite alter_insert_eq.
  unfold generateAccessToken, generateRefreshToken, new_User, assign. cbn.
  rewrite !toLowerCase_idemp. reflexivity.
Qed.

Lemma register_conflict (req : Request) (now : Z) (oid : ObjectId)
    (db : gmap positive User) (mail : string) (i : ObjectId) (u : User) :
  validation_errors req = [] → b_email (body req) = Some mail →
  db !! i = Some u → email u = trim (toLowerCase mail) →
  register req now oid db = (failure 409 "User already exists with this email", db).
Proof.
  intros Hv Hm Hi He. unfold register. rewrite Hv, Hm. run.
  destruct (findOne_found (by_email (toLowerCase mail)) db i u Hi)
    as [d Hd]; [rewrite by_email_toLowerCase; apply bool_decide_eq_true; exact He|].
  rewrite Hd. reflexivity.
Qed.

(** X17.  A registration that passes the checks of the handler is answered 201
    and stores one new record: no failure on record and no lock, a registry
    holding exactly the refresh token set in the cookie, the trimmed name,
    the trimmed lower-case e-mail and the hash of the password; every other
    record is as before. *)
Theorem register_creates_a_fresh_account
    (req : Request) (now : Z) (oid : ObjectId) (db : gmap positive User)
    (fn mail pw : string) :
  registrable db req fn mail pw oid →
  ∃ r db' u tok,
    register req now oid db = (r, db') ∧ status r = 201 ∧
    db' !! oid = Some u ∧
    attempts u = 0 ∧ (∀ t, isLocked {| _id := oid; fields := u |} t = false) ∧
    refreshCookie r = refresh_cookie tok ∧ tokens (refreshTokens u) = [tok] ∧
    token_subject tok = Some oid ∧
    fullName u = trim fn ∧ email u = trim (toLowerCase mail) ∧
    (∃ rounds, password u = bcrypt_hash rounds pw) ∧
    ∀ j, j ≠ oid → db' !! j = db !! j.
Proof.
  intros Hreg. destruct (register_success req now oid db fn mail pw Hreg) as [rounds H].
  cbn zeta in H. eexists _, _, _, _. split; [exact H|].
  split; [reflexivity|]. split; [apply lookup_insert_eq|].
  split; [reflexivity|]. split; [reflexivity|]. split; [reflexivity|].
  split; [reflexivity|]. split; [reflexivity|]. split; [reflexivity|].
  split; [reflexivity|]. split; [eauto|].
  intros j Hj. rewrite lookup_insert_ne by done. reflexivity.
Qed.

(** X18.  A registration with the e-mail of a stored user, in any letter case
    and with any white space around it, is answered 409 "User already exists
    with this email" and writes nothing. *)
Theorem register_refuses_a_taken_email
    (req : Request) (now : Z) (oid : ObjectId) (db : gmap positive User)
    (mail : string) (i : ObjectId) (u : User) :
  validation_errors req = [] → b_email (body req) = Some mail →
  db !! i = Some u → email u = trim (toLowerCase mail) →
  register req now oid db = (failure 409 "User already exists with this email", db).
Proof. apply register_conflict. Qed.

(** X19.  Registering twice: after a registration that was answered 201, a
    registration with the same e-mail, in any letter case and with any white
    space around it, is answered 409 and writes nothing. *)
Theorem registered_email_is_taken
    (req : Request) (now : Z) (oid : ObjectId) (db : gmap positive User)
    (fn mail pw : string) (req' : Request) (now' : Z) (oid' : ObjectId)
    (mail' : string) :
  registrable db req fn mail pw oid →
  validation_errors req' = [] → b_email (body req') = Some mail' →
  trim (toLowerCase mail') = trim (toLowerCase mail) →
  register req' now' oid' (register req now oid db).2
  = (failure 409 "User already exists with this email", (register req now oid db).2).
Proof.
  intros Hreg Hv Hm Hsame.
  destruct (register_success req now oid db fn mail pw Hreg) as [rounds H].
  cbn zeta in H. rewrite H. cbn.
  eapply register_conflict; [exact Hv|exact Hm|apply lookup_insert_eq|].
  cbn. congruence.
Qed.

(** X20.  Registration and login fit together: after a registration that was
    answered 201, a login with the same e-mail, in any letter case and with
    any white space around it, and the registered password is answered 200,
    provided [bcrypt.compare] accepts a password against its own hash. *)
Theorem register_then_login
    (req : Request) (now : Z) (oid : ObjectId) (db : gmap positive User)
    (fn mail pw : string) (req' : Request) (now' : Z) (mail' : string) :
  unique_email db → registrable db req fn mail pw oid →
  (∀ rounds, bcrypt_compare pw (bcrypt_hash rounds pw) = true) →
  validation_errors req' = [] → b_email (body req') = Some mail' →
  trim (toLowerCase mail') = trim (toLowerCase mail) →
  b_password (body req') = Some pw →
  status (login req' now' (register req now oid db).2).1 = 200.
Proof.
  intros Huniq Hreg Hbcrypt Hv Hm Hsame Hp.
  pose proof Hreg as (_ & _ & _ & _ & Hfree & _ & Ho).
  destruct (register_success req now oid db fn mail pw Hreg) as [rounds H].
  cbn zeta in H. rewrite H. cbn.
  erewrite login_success; [reflexivity| | | | | |exact Hp|].
  - apply transition_unique_email with (db := db); [|exact Huniq].
    apply transition_insert; [exact Ho| |exact Hfree].
    unfold new_account. cbn. repeat split; eauto.
  - apply lookup_insert_eq.
  - split; [exact Hv|]. exists mail'. split; [exact Hm|]. cbn. congruence.
  - reflexivity.
  - reflexivity.
  - cbn. apply Hbcrypt.
Qed.

(** ** The registry methods *)

(** X21.  [removeRefreshToken] removes every entry for the token and only those:
    what is left is a sub-list of the registry in its order, it holds an
    entry exactly when the registry held it under another token, and a
    token that is not in the registry leaves the registry as it was.  What
    is stored under the [_id] of the document is the registry left. *)
Theorem removeRefreshToken_removes_that_token_only
    (this : Document) (tok : Token) (db : gmap positive User) :
  let this' := (removeRefreshToken this tok db).1 in
  let db' := (removeRefreshToken this tok db).2 in
  (tok ∉ tokens (refreshTokens (fields this'))) ∧
  (∀ e, e ∈ refreshTokens (fields this')
        ↔ e ∈ refreshTokens (fields this) ∧ token e ≠ tok) ∧
  refreshTokens (fields this') `sublist_of` refreshTokens (fields this) ∧
  (tok ∉ tokens (refreshTokens (fields this)) →
   refreshTokens (fields this') = refreshTokens (fields this)) ∧
  registry_saved this' db'.
Proof.
  cbn zeta. unfold removeRefreshToken, save. run.
  split; [apply not_in_filtered_tokens|].
  split; [intros e; rewrite list_elem_of_filter; tauto|].
  split; [apply sublist_filter|].
  split; [|apply registry_saved_alter].
  intros Hno. induction (refreshTokens (fields this)) as [|e l IH]; [reflexivity|].
  assert (token e ≠ tok ∧ tok ∉ tokens l) as [Hne Hl].
  { unfold tokens in *. cbn in Hno. rewrite not_elem_of_cons in Hno.
    destruct Hno. split; congruence. }
  rewrite filter_cons_True by exact Hne. f_equal. exact (IH Hl).
Qed.

(** X22.  A token lives about seven days in the registry.  For a token that
    the registry does not hold yet, the entry that [addRefreshToken] stores
    at time [t] is still there after a [cleanupExpiredTokens] at any time
    before [t] + 6 days, and no entry for the token is left after one at any
    time from [t] + 8 days on.  (The seven days are days of the server's
    calendar: the instant of expiry is [t] + 7 × 24 hours up to the changes
    of the clock's offset in between, on which the statement does not
    depend.) *)
Theorem added_token_outlives_six_days_not_eight
    (this : Document) (tok : Token) (t now : Z) (db db1 : gmap positive User) :
  (tok ∉ tokens (refreshTokens (fields this))) →
  let added := (addRefreshToken this tok t db).1 in
  let cleaned := (cleanupExpiredTokens added now db1).1 in
  (now < t + 6 * 24 * 60 * 60 * 1000 →
   tok ∈ tokens (refreshTokens (fields cleaned))) ∧
  (t + 8 * 24 * 60 * 60 * 1000 ≤ now →
   tok ∉ tokens (refreshTokens (fields cleaned))).
Proof.
  intros Hno. cbn zeta. rewrite addRefreshToken_eq.
  unfold cleanupExpiredTokens, save. run. unfold tokens in *. split.
  - intros H. apply list_elem_of_fmap.
    exists {| token := tok; createdAt := t; expiresAt := t + seven_days |}.
    split; [reflexivity|]. apply list_elem_of_filter.
    split; [cbn; unfold seven_days; lia|].
    eapply last_Some_elem_of. apply last_slice_last_snoc. lia.
  - intros H Hin. apply list_elem_of_fmap in Hin as (e & -> & He).
    apply list_elem_of_filter in He as [Hexp He].
    apply (subseteq_drop _ _ _) in He. apply elem_of_app in He as [He|He].
    + apply Hno. apply list_elem_of_fmap. eauto.
    + apply list_elem_of_singleton in He. apply (f_equal expiresAt) in He.
      cbn in He. unfold seven_days in He. lia.
Qed.

(** ** The lock runs out *)

Lemma logins_reach_threshold (i : ObjectId) (reqs : list (Request * Z))
    (req5 : Request) (t5 : Z) (db : gmap positive User) (u : User) :
  unique_email db → db !! i = Some u → isActive u = true → lockUntil u = None →
  attempts u + Z.of_nat (length reqs) = 4 →
  Forall (λ rt, wrong_password_for u rt.1) (reqs ++ [(req5, t5)]) →
  ∃ db5 u5,
    logins (reqs ++ [(req5, t5)]) db
    = (replicate (S (length reqs)) invalid_credentials, db5) ∧
    db5 !! i = Some u5 ∧ attempts u5 = 5 ∧ lockUntil u5 = Some (t5 + lock_duration).
Proof.
  intros Huniq Hi Ha Hl Hn Hall.
  apply Forall_app in Hall as [Hall H5]. apply Forall_cons in H5 as [H5 _]. cbn in H5.
  destruct (logins_below_threshold i reqs db u) as
    (db4 & u4 & Hrun & Huniq4 & Hi4 & Hat4 & Hl4 & Ha4 & He4 & Hp4); auto; [lia|].
  pose proof (wrong_password_for_same_account u u4 req5 He4 Hp4 H5) as H5'.
  pose proof (login_wrong_password _ t5 _ _ _ Huniq4 Hi4 H5'
                (isLocked_no_lock i u4 t5 Hl4) Ha4) as Hstep.
  rewrite (incLoginAttempts_unlocked _ _ _ _ Hi4 Hl4) in Hstep.
  rewrite bool_decide_eq_true_2 in Hstep by lia.
  set (u5 := set_lockUntil (Some (t5 + lock_duration)) (inc_loginAttempts 1 u4)) in Hstep.
  exists (<[ i := u5 ]> db4), u5.
  split; [|split; [apply lookup_insert_eq|split; [|reflexivity]]].
  - rewrite logins_app, Hrun. cbn. run. rewrite Hstep.
    f_equal. symmetry. apply replicate_S_end.
  - change (attempts u4 + 1 = 5). lia.
Qed.

(** X8.  Once the lock has run out the count starts over.  For an active account
    whose recorded [lockUntil] lies before the first of five consecutive
    wrong-password logins: the first one leaves [loginAttempts = 1] and no
    lock, and the account is locked again only by the fifth, until two hours
    after it. *)
Theorem expired_lock_restarts_the_count
    (db : gmap positive User) (i : ObjectId) (u : User) (lock : Z)
    (req1 : Request) (t1 : Z) (reqs : list (Request * Z)) (req5 : Request) (t5 : Z) :
  unique_email db → db !! i = Some u → isActive u = true →
  lockUntil u = Some lock → lock < t1 → length reqs = 3%nat →
  Forall (λ rt, wrong_password_for u rt.1) ((req1, t1) :: reqs ++ [(req5, t5)]) →
  (∃ db1 u1,
     login req1 t1 db = (invalid_credentials, db1) ∧ db1 !! i = Some u1 ∧
     attempts u1 = 1 ∧ lockUntil u1 = None) ∧
  (∃ db4 u4,
     logins ((req1, t1) :: reqs) db = (replicate 4 invalid_credentials, db4) ∧
     db4 !! i = Some u4 ∧ attempts u4 = 4 ∧ lockUntil u4 = None) ∧
  ∃ db5 u5,
    logins ((req1, t1) :: reqs ++ [(req5, t5)]) db
    = (replicate 5 invalid_credentials, db5) ∧
    db5 !! i = Some u5 ∧ attempts u5 = 5 ∧
    lockUntil u5 = Some (t5 + 2 * 60 * 60 * 1000).
Proof.
  intros Huniq Hi Ha Hl Hlt Hlen Hall.
  apply Forall_cons in Hall as [H1 Hall]. cbn in H1.
  assert (isLocked {| _id := i; fields := u |} t1 = false) as Hnl.
  { unfold isLocked. cbn. rewrite Hl. apply bool_decide_eq_false. lia. }
  pose proof (login_wrong_password _ t1 _ _ _ Huniq Hi H1 Hnl Ha) as Hstep.
  set (u1 := set_loginAttempts (Some 1) (set_lockUntil None u)).
  assert ((incLoginAttempts {| _id := i; fields := u |} t1 db).2 = <[ i := u1 ]> db) as E.
  { unfold incLoginAttempts, updateOne. cbn. rewrite Hl.
    rewrite bool_decide_eq_true_2 by lia. cbn.
    exact (alter_stored (λ v, set_loginAttempts (Some 1) (set_lockUntil None v))
             i u db Hi). }
  rewrite E in Hstep.
  assert (unique_email (<[ i := u1 ]> db)) as Huniq1
    by (eapply unique_email_insert; eauto).
  assert (Forall (λ rt : Request * Z, wrong_password_for u1 rt.1) (reqs ++ [(req5, t5)]))
    as Hall1.
  { eapply Forall_impl; [exact Hall|]. intros rt.
    apply wrong_password_for_same_account; reflexivity. }
  split; [|split].
  - exists (<[ i := u1 ]> db), u1. split; [exact Hstep|].
    split; [apply lookup_insert_eq|]. split; reflexivity.
  - apply Forall_app in Hall1 as [Hall1 _].
    destruct (logins_below_threshold i reqs (<[ i := u1 ]> db) u1) as
      (db4 & u4 & Hrun & _ & Hi4 & Hat4 & Hl4 & _); auto.
    { apply lookup_insert_eq. }
    { rewrite Hlen. change (attempts u1) with 1. lia. }
    exists db4, u4. cbn. run. rewrite Hstep, Hrun, Hlen.
    split; [reflexivity|]. split; [exact Hi4|]. split; [|exact Hl4].
    rewrite Hat4, Hlen. reflexivity.
  - destruct (logins_reach_threshold i reqs req5 t5 (<[ i := u1 ]> db) u1) as
      (db5 & u5 & Hrun & Hi5 & Hat5 & Hl5); auto.
    { apply lookup_insert_eq. }
    { rewrite Hlen. reflexivity. }
    exists db5, u5. cbn. run. rewrite Hstep, Hrun, Hlen.
    split; [reflexivity|]. split; [exact Hi5|]. split; [exact Hat5|exact Hl5].
Qed.

End Gatekeeper.
















(** * The statements at concrete inputs *)

Example toLowerCase_mixed : toLowerCase "Alice@Example.COM" = "alice@example.com".
Proof. reflexivity. Qed.

Example trim_both_ends : trim "  Bob Stone " = "Bob Stone".
Proof. reflexivity. Qed.

Example slice_last_of_seven : slice_last 5 [1; 2; 3; 4; 5; 6; 7] = [3; 4; 5; 6; 7].
Proof. reflexivity. Qed.

Example slice_last_of_three : slice_last 5 [1; 2; 3] = [1; 2; 3].
Proof. reflexivity. Qed.

(** A token verifies until the clock reaches its [exp], and only under the
    key that signed it. *)
Example alice_token_verifies :
  jwt_verify alice_token (JWT_REFRESH_SECRET cfg0) 604800999
  = inr (RefreshPayload 1%positive "refresh") ∧
  jwt_verify alice_token (JWT_REFRESH_SECRET cfg0) 604801000 = inl TokenExpiredError ∧
  jwt_verify alice_token (JWT_SECRET cfg0) 2000 = inl JsonWebTokenError.
Proof. repeat split; vm_compute; reflexivity. Qed.

(** The lock expires at [lockUntil]: locked strictly before, not at it. *)
Example alice_locked_until :
  isLocked {| _id := 1%positive; fields := alice_after_five |} 7199999 = true ∧
  isLocked {| _id := 1%positive; fields := alice_after_five |} 7200000 = false.
Proof. split; reflexivity. Qed.

(** The lookups cast the e-mail: [alice] is found under her address written
    in capitals and with white space around it, at login and at
    registration. *)
Example padded_email_finds_alice :
  status (login toy_compare cfg0 (login_request " ALICE@example.com " "Secur3!pass")
            1000 db_alice).1 = 200 ∧
  login toy_compare cfg0 (login_request " ALICE@example.com " "guess") 1000 db_alice
  = (failure 401 "Invalid credentials",
     {[ 1%positive := set_loginAttempts (Some 1) alice ]}) ∧
  register toy_hash toy_pattern cfg0
    {| body := {| b_fullName := Some "Alice"; b_email := Some " ALICE@example.com ";
                  b_password := Some "An0ther!pass"; b_extra := ∅ |};
       cookies_refreshToken := None; req_user := None; validation_errors := [] |}
    5000 2%positive db_alice
  = (failure 409 "User already exists with this email", db_alice).
Proof. repeat split; vm_compute; reflexivity. Qed.

Lemma wrong_request_is_wrong : wrong_password_for toy_compare alice wrong_request.
Proof.
  split; [split; [reflexivity | exists "Alice@Example.com"; split; reflexivity] |].
  exists "guess". split; reflexivity.
Defined.

(** Five wrong passwords for [alice] lock her account until two hours after
    the fifth, and her right password is then turned down with 423. *)
Lemma five_failures_lock_alice :
  ∃ db5 u5,
    logins toy_compare cfg0
      [(wrong_request, 1000); (wrong_request, 2000); (wrong_request, 3000);
       (wrong_request, 4000); (wrong_request, 5000)] db_alice
    = (replicate 5 invalid_credentials, db5) ∧
    db5 !! 1%positive = Some u5 ∧ attempts u5 = 5 ∧ lockUntil u5 = Some 7205000 ∧
    login toy_compare cfg0 good_request 6000 db5 = (account_locked, db5).
Proof.
  destruct (five_failures_lock_the_account toy_compare cfg0 db_alice 1%positive alice
              [(wrong_request, 1000); (wrong_request, 2000); (wrong_request, 3000);
               (wrong_request, 4000)] wrong_request 5000)
    as [_ (db5 & u5 & Hrun & Hi & Hat & Hl & Hlocked)].
  - apply unique_email_singleton.
  - reflexivity.
  - reflexivity.
  - reflexivity.
  - reflexivity.
  - reflexivity.
  - cbn. repeat (apply List.Forall_cons; [exact wrong_request_is_wrong|]).
    apply List.Forall_nil.
  - exists db5, u5. repeat split; auto. apply Hlocked.
    + split; [reflexivity|]. exists "alice@example.com". split; reflexivity.
    + reflexivity.
Defined.

(** A first failure on [alice] counts one attempt. *)
Lemma failed_attempt_on_alice :
  ∃ u', (incLoginAttempts doc_alice 1000 db_alice).2 !! 1%positive = Some u' ∧
        attempts u' = 1.
Proof.
  destruct (failed_attempt_policy db_alice 1%positive alice 1000)
    as (u' & Hu & _ & Hinc); [reflexivity | reflexivity |].
  exists u'. split; [exact Hu|]. apply Hinc. intros (l & Hl & _). discriminate Hl.
Defined.

(** C2.  The failure path misses the instant at which the lock runs out.
    The account was locked by five failures until time 7200000.  At that
    very time [isLocked] reports the lock as over, so the attempt is one made
    while the account is not locked; yet [incLoginAttempts] does not take the
    lock for expired: it counts a sixth failure and leaves the old
    [lockUntil] on record, where the failure path asks for a count of 1 and
    no lock (the lock has run out) or, [lockUntil] not lying in the past, for
    a lock until [now] + 2 hours.  One millisecond later the same call does
    restart the count at 1 and removes the lock. *)
Lemma failed_attempt_at_the_lock_instant :
  let this := {| _id := 1%positive; fields := alice_after_five |} in
  let db := {[ 1%positive := alice_after_five ]} : gmap positive User in
  isLocked this 7200000 = false ∧
  (∃ u', (incLoginAttempts this 7200000 db).2 !! 1%positive = Some u' ∧
         attempts u' = 6 ∧ lockUntil u' = Some 7200000 ∧
         ¬ failure_path_as_specified alice_after_five 7200000 u') ∧
  ∃ u', (incLoginAttempts this 7200001 db).2 !! 1%positive = Some u' ∧
        attempts u' = 1 ∧ lockUntil u' = None.
Proof.
  cbn zeta. split; [reflexivity|]. split.
  - eexists. split; [vm_compute; reflexivity|].
    split; [reflexivity|]. split; [reflexivity|].
    intros [_ H]. destruct H as [_ H].
    + intros (l & [= <-] & Hl). lia.
    + cbn in H. assert (6 >= 5) as H6 by lia. specialize (H H6). discriminate H.
  - eexists. split; [vm_compute; reflexivity|]. split; reflexivity.
Qed.

(** A login of [alice] with her password, after her lock has run out. *)
Lemma alice_login_clears_lockout :
  let db := {[ 1%positive := alice_after_five ]} : gmap positive User in
  ∃ u', (login toy_compare cfg0 good_request 9000000 db).2 !! 1%positive = Some u' ∧
        attempts u' = 0 ∧ lockUntil u' = None ∧ lastLogin u' = Some 9000000.
Proof.
  cbn zeta. set (db := {[ 1%positive := alice_after_five ]} : gmap positive User).
  destruct (successful_login_clears_lockout toy_compare cfg0 good_request 9000000 db
              (login toy_compare cfg0 good_request 9000000 db).2
              (login toy_compare cfg0 good_request 9000000 db).1)
    as (mail & d & u' & Hm & Hf & Hu & Hla & Hlo & Hll).
  - destruct (login toy_compare cfg0 good_request 9000000 db). reflexivity.
  - vm_compute. reflexivity.
  - injection Hm as <-. vm_compute in Hf. injection Hf as <-.
    exists u'. auto.
Defined.

(** A sixth token on a full registry. *)
Lemma sixth_token_evicts_the_oldest :
  refreshTokens (fields (addRefreshToken doc_full (Opaque "t") 6 db_alice).1)
  = [entry 2; entry 3; entry 4; entry 5; entry 6] ∧
  (length (refreshTokens
             (fields (addRefreshTokens doc_full [(Opaque "t", 6%Z); (Opaque "t", 7%Z)]
                        db_alice).1)) ≤ 5)%nat.
Proof.
  split; [vm_compute; reflexivity|].
  destruct (proj2 (refresh_registry_keeps_the_five_newest doc_full db_alice)
              [(Opaque "t", 6); (Opaque "t", 7)]) as [H _];
    [left; discriminate | exact H].
Defined.

(** C5.  The code at a configured lifetime of one day: the token minted at
    time 0 expires one day after it was minted ([exp = 86400] seconds), the
    registry entry stored for it seven days after ([expiresAt = 604800000]
    milliseconds); the stored [expiresAt] is not [now] plus the configured
    lifetime. *)
Lemma registry_expiry_ignores_the_configured_ttl :
  (∃ j, generateRefreshToken cfg_1d doc_alice 0 = Signed j ∧ jwt_exp j = 86400) ∧
  expiresAt <$> last (refreshTokens
                        (fields (addRefreshToken doc_alice
                                   (generateRefreshToken cfg_1d doc_alice 0) 0
                                   db_alice).1))
  = Some 604800000 ∧
  ¬ expiry_as_specified cfg_1d.
Proof.
  split; [eexists; split; reflexivity|]. split; [vm_compute; reflexivity|].
  intros H. specialize (H doc_alice 0 db_alice). vm_compute in H. discriminate H.
Qed.

(** C6.  The code when the exchange happens in the clock second in which the
    presented token was minted.  [alice] logs in at time 1000 and is handed
    [alice_token]; she presents it at time 1500: the answer is 200 and the
    token minted for the exchange, set in the cookie, is [alice_token] again
    (same payload, same [iat], same [exp], same key), so the token is back
    in her registry; presented once more at time 1900 it is answered 200,
    where single use asks for 401. *)
Lemma refresh_within_the_same_second_keeps_the_token :
  let presented := cookie_request (Some alice_token) None in
  (login toy_compare cfg0 good_request 1000 db_alice).2 = db_session ∧
  refreshCookie (login toy_compare cfg0 good_request 1000 db_alice).1
  = refresh_cookie cfg0 alice_token ∧
  status (refreshToken cfg0 presented 1500 db_session).1 = 200 ∧
  refreshCookie (refreshToken cfg0 presented 1500 db_session).1
  = refresh_cookie cfg0 alice_token ∧
  status (refreshToken cfg0 presented 1900
            (refreshToken cfg0 presented 1500 db_session).2).1 = 200 ∧
  ¬ single_use_as_specified cfg0.
Proof.
  cbn zeta. repeat split; try (vm_compute; reflexivity).
  intros H.
  specialize (H (cookie_request (Some alice_token) None) 1500 db_session
                alice_token 1900 eq_refl).
  vm_compute in H. specialize (H eq_refl). discriminate H.
Qed.

(** An exchange in a later second retires the presented token. *)
Lemma rotation_in_a_later_second_retires_the_token :
  let presented := cookie_request (Some alice_token) None in
  let db' := (refreshToken cfg0 presented 2500 db_session).2 in
  ∃ r', refreshToken cfg0 presented 3000 db' = (r', db') ∧ status r' = 401.
Proof.
  cbn zeta. set (presented := cookie_request (Some alice_token) None).
  destruct (refresh_rotation_single_use cfg0 presented 2500 db_session
              (refreshToken cfg0 presented 2500 db_session).2
              (refreshToken cfg0 presented 2500 db_session).1)
    as (tok & p & u & u' & Hc & Hv & Hu & Hin & Hcookie & Hu' & Hnew & Hrot).
  - destruct (refreshToken cfg0 presented 2500 db_session). reflexivity.
  - vm_compute. reflexivity.
  - injection Hc as <-. vm_compute in Hv. injection Hv as <-.
    destruct Hrot as [_ H].
    + intros Heq. vm_compute in Heq. discriminate Heq.
    + destruct (H presented 3000 eq_refl) as (r' & Hr & Hs & _).
      exists r'. split; [exact Hr | exact Hs].
Defined.

(** After [logoutAll], the token handed to [alice] at her login is refused. *)
Lemma logoutAll_revokes_alice_token :
  let db' := (logoutAll (cookie_request None (Some 1%positive)) db_session).2 in
  ∃ r', refreshToken cfg0 (cookie_request (Some alice_token) None) 2000 db' = (r', db') ∧
        status r' = 401 ∧ message r' = "Invalid refresh token".
Proof.
  cbn zeta.
  destruct (logoutAll_revokes_every_refresh_token cfg0
              (cookie_request None (Some 1%positive)) db_session 1%positive
              (set_refreshTokens
                 [{| token := alice_token; createdAt := 1000; expiresAt := 604801000 |}]
                 (set_lastLogin (Some 1000) (set_loginAttempts None alice))))
    as (r & db' & u' & Hrun & _ & _ & _ & Hrev); [reflexivity | reflexivity |].
  rewrite Hrun. cbn.
  destruct (Hrev (cookie_request (Some alice_token) None) 2000 alice_token)
    as (r' & Hr & Hs & _ & Hm); [reflexivity | reflexivity |].
  exists r'. split; [exact Hr|]. split; [exact Hs|]. apply Hm. reflexivity.
Defined.

(** An unknown e-mail and a wrong password for [alice] get the same answer. *)
Lemma unknown_email_answered_as_wrong_password :
  (login toy_compare cfg0 (login_request "nobody@example.com" "guess") 1000 db_alice).1
  = (login toy_compare cfg0 wrong_request 2000 db_alice).1.
Proof.
  apply (login_failures_indistinguishable toy_compare cfg0 db_alice db_alice
           (login_request "nobody@example.com" "guess") wrong_request 1000 2000
           1%positive alice).
  - split; [reflexivity|]. exists "nobody@example.com". split; [reflexivity|].
    intros i u Hi. unfold db_alice in Hi.
    apply lookup_singleton_Some in Hi as [_ <-]. discriminate.
  - apply unique_email_singleton.
  - reflexivity.
  - reflexivity.
  - reflexivity.
  - exact wrong_request_is_wrong.
Defined.

(** A logout on the public route that presents the token of [alice]. *)
Lemma public_logout_keeps_alice_token :
  ∃ r, logout (cookie_request (Some alice_token) None) db_session = (r, db_session) ∧
       status r = 200.
Proof.
  destruct (logout_without_identity_changes_nothing
              (cookie_request (Some alice_token) None) db_session)
    as (r & Hr & Hs & _); [reflexivity|].
  exists r. split; [exact Hr | exact Hs].
Defined.

(** A registration that asks for the role of an administrator. *)
Lemma registration_ignores_the_requested_role :
  ∃ u, (register toy_hash toy_pattern cfg0 register_request 5000 2%positive db_alice).2
       !! 2%positive = Some u ∧
       role u = "user" ∧ isActive u = true ∧ isVerified u = false.
Proof.
  destruct (registration_assigns_default_role toy_hash toy_pattern cfg0
              register_request 5000 2%positive db_alice
              (register toy_hash toy_pattern cfg0 register_request 5000 2%positive db_alice).2
              (register toy_hash toy_pattern cfg0 register_request 5000 2%positive db_alice).1)
    as [(u & v & _ & Hu & Hr & Ha & Hv & _) _].
  - destruct (register toy_hash toy_pattern cfg0 register_request 5000 2%positive db_alice).
    reflexivity.
  - vm_compute. reflexivity.
  - exists u. auto.
Defined.

(** * The configuration utilities *)

Example split_examples :
  split "," "" = [""] ∧ split "," "a,b" = ["a"; "b"] ∧ split "," "a," = ["a"; ""] ∧
  split "," ",a" = [""; "a"].
Proof. repeat split. Qed.

Example parseArray_examples :
  parseArray (AString " http://a.io , ,http://b.io,") ["x"]
  = ["http://a.io"; "http://b.io"] ∧
  parseArray (AString "") ["x"] = [] ∧
  parseArray NoArray ["x"] = ["x"] ∧
  parseArray (AnArray [" a "; ""]) ["x"] = [" a "; ""].
Proof. repeat split. Qed.

Lemma redact_lookup (c : gmap string Json) (a k : string) :
  redact c a !! k = if decide (k = a) then redacted (c !! k) else c !! k.
Proof.
  unfold redact, redacted. destruct (decide (k = a)) as [->|Hne].
  - destruct (c !! a) as [v|] eqn:E; [|rewrite E; reflexivity].
    destruct (js_truthy v) eqn:Ht.
    + rewrite lookup_insert_eq. cbn. rewrite Ht. reflexivity.
    + rewrite E. cbn. rewrite Ht. reflexivity.
  - destruct (c !! a) as [v|]; [|reflexivity].
    destruct (js_truthy v); [|reflexivity].
    rewrite lookup_insert_ne by done. reflexivity.
Qed.

Lemma redacted_idemp (o : option Json) : redacted (redacted o) = redacted o.
Proof.
  destruct o as [v|]; [|reflexivity]. cbn.
  destruct (js_truthy v) eqn:Ht; cbn; [reflexivity|]. rewrite Ht. reflexivity.
Qed.

Lemma foldl_redact_lookup (keys : list string) :
  ∀ (c : gmap string Json) (k : string),
    foldl redact c keys !! k
    = if decide (k ∈ keys) then redacted (c !! k) else c !! k.
Proof.
  induction keys as [|a keys IH]; intros c k; cbn.
  - destruct (decide (k ∈ [])) as [H|_]; [|reflexivity].
    apply elem_of_nil in H. done.
  - rewrite IH, redact_lookup.
    destruct (decide (k ∈ keys)) as [Hin|Hnin], (decide (k = a)) as [->|Hne];
      destruct (decide (_ ∈ a :: keys)) as [H|H];
      try reflexivity; try apply redacted_idemp.
    + exfalso. apply H. apply elem_of_cons. auto.
    + exfalso. apply H. apply elem_of_cons. auto.
    + exfalso. apply H. apply elem_of_cons. auto.
    + apply elem_of_cons in H as [H|H]; done.
Qed.

(** X23.  The sanitized copy holds no secret: each sensitive member holds
    "[REDACTED]" or the falsy value it held before; every other member is
    as it was; no member is added or removed; and sanitizing the copy again
    changes nothing. *)
Theorem sanitized_config_holds_no_secret (config : gmap string Json) :
  let sanitized := sanitizeConfigForLogging config in
  (∀ key v, key ∈ sensitiveKeys → sanitized !! key = Some v →
     v = JString "[REDACTED]" ∨ (config !! key = Some v ∧ js_truthy v = false)) ∧
  (∀ key, key ∉ sensitiveKeys → sanitized !! key = config !! key) ∧
  (∀ key, is_Some (sanitized !! key) ↔ is_Some (config !! key)) ∧
  sanitizeConfigForLogging sanitized = sanitized.
Proof.
  cbn zeta. unfold sanitizeConfigForLogging. repeat split.
  - intros key v Hin. rewrite foldl_redact_lookup.
    destruct (decide _) as [_|Hn]; [|done]. unfold redacted.
    destruct (config !! key) as [w|]; cbn; [|discriminate].
    destruct (js_truthy w) eqn:Ht; intros [= <-]; auto.
  - intros key Hn. rewrite foldl_redact_lookup.
    destruct (decide _) as [Hin|_]; [done|reflexivity].
  - rewrite foldl_redact_lookup. destruct (decide _); [|done].
    unfold redacted. rewrite fmap_is_Some. done.
  - rewrite foldl_redact_lookup. destruct (decide _); [|done].
    unfold redacted. intros H. apply fmap_is_Some. exact H.
  - apply map_eq. intros k. rewrite !foldl_redact_lookup.
    destruct (decide _); [apply redacted_idemp|reflexivity].
Qed.

(** ** parseArray *)

Lemma trimEnd_idemp (s : string) : trimEnd (trimEnd s) = trimEnd s.
Proof.
  induction s as [|c r IH]; [reflexivity|]. cbn.
  destruct (trimEnd r) as [|c' r'] eqn:E.
  - destruct (is_space c) eqn:Hc; [reflexivity|]. cbn. rewrite Hc. reflexivity.
  - cbn. cbn in IH. rewrite IH. reflexivity.
Qed.

Lemma trimStart_head (s : string) :
  match trimStart s with
  | EmptyString => True
  | String c _ => is_space c = false
  end.
Proof.
  induction s as [|c r IH]; cbn; [exact I|].
  destruct (is_space c) eqn:Hc; [exact IH | exact Hc].
Qed.

Lemma trimStart_trimEnd (s : string) :
  match s with
  | EmptyString => True
  | String c _ => is_space c = false
  end →
  trimStart (trimEnd s) = trimEnd s.
Proof.
  destruct s as [|c r]; [reflexivity|]. intros Hc. cbn.
  destruct (trimEnd r); cbn; rewrite Hc; cbn; rewrite ?Hc; reflexivity.
Qed.

Lemma trim_idemp (s : string) : trim (trim s) = trim s.
Proof.
  unfold trim. rewrite (trimStart_trimEnd _ (trimStart_head s)).
  apply trimEnd_idemp.
Qed.

Lemma occurs_trimStart (c : ascii) (s : string) :
  occurs c (trimStart s) = true → occurs c s = true.
Proof.
  induction s as [|a r IH]; cbn; [done|].
  destruct (is_space a); cbn; [|done].
  intros H. rewrite (IH H). apply orb_true_r.
Qed.

Lemma occurs_trimEnd (c : ascii) (s : string) :
  occurs c (trimEnd s) = true → occurs c s = true.
Proof.
  induction s as [|a r IH]; cbn; [done|].
  destruct (trimEnd r) as [|a' r'] eqn:E.
  - destruct (is_space a); cbn; [done|]. rewrite orb_false_r. intros ->. reflexivity.
  - cbn. intros H. apply orb_true_iff in H as [->|H]; [reflexivity|].
    cbn in IH. rewrite (IH H). apply orb_true_r.
Qed.

Lemma occurs_trim (c : ascii) (s : string) :
  occurs c s = false → occurs c (trim s) = false.
Proof.
  intros H. destruct (occurs c (trim s)) eqn:E; [|reflexivity].
  unfold trim in E. apply occurs_trimEnd, occurs_trimStart in E. congruence.
Qed.

Lemma split_pieces (sep : ascii) (s : string) :
  split sep s ≠ [] ∧ ∀ piece, piece ∈ split sep s → occurs sep piece = false.
Proof.
  induction s as [|c r [Hne IH]]; cbn.
  - split; [done|]. intros piece H. apply list_elem_of_singleton in H as ->. reflexivity.
  - destruct (Ascii.eqb c sep) eqn:Hc.
    + split; [done|]. intros piece H. apply elem_of_cons in H as [->|H]; auto.
    + destruct (split sep r) as [|p rest]; [done|]. split; [done|].
      intros piece H. apply elem_of_cons in H as [->|H].
      * cbn. rewrite Hc. apply IH. apply elem_of_cons. auto.
      * apply IH. apply elem_of_cons. auto.
Qed.

(** X24.  Whatever string [parseArray] is given, each item it yields is not empty,
    has no white space around it and holds no comma; the default plays no
    part. *)
Theorem parseArray_yields_clean_items
    (s : string) (defaultValue : list string) (item : string) :
  item ∈ parseArray (AString s) defaultValue → clean_item item.
Proof.
  cbn. intros H. apply list_elem_of_filter in H as [Hne H].
  apply list_elem_of_fmap in H as (piece & -> & H).
  split; [exact Hne|]. split; [apply trim_idemp|].
  apply occurs_trim. apply (proj2 (split_pieces "," s)). exact H.
Qed.

Lemma split_no_sep (sep : ascii) (s : string) :
  occurs sep s = false → split sep s = [s].
Proof.
  induction s as [|c r IH]; cbn [occurs split]; [reflexivity|].
  intros H. apply orb_false_iff in H as [Hc Hr]. rewrite Hc, (IH Hr). reflexivity.
Qed.

Lemma split_app_sep (sep : ascii) (s r : string) :
  occurs sep s = false → split sep (s +:+ String sep r) = s :: split sep r.
Proof.
  induction s as [|c s IH].
  - intros _. change (split sep (String sep r) = "" :: split sep r).
    cbn [split]. rewrite Ascii.eqb_refl. reflexivity.
  - intros H. cbn [occurs] in H. apply orb_false_iff in H as [Hc Hs].
    change (split sep (String c (s +:+ String sep r)) = String c s :: split sep r).
    cbn [split]. rewrite Hc, (IH Hs). reflexivity.
Qed.

Lemma split_join (item : string) (rest : list string) :
  Forall (λ e, occurs "," e = false) (item :: rest) →
  split "," (join ", " (item :: rest)) = item :: (String " " <$> rest).
Proof.
  revert item. induction rest as [|next rest IH]; intros item Hall.
  - cbn. apply split_no_sep. apply Forall_cons in Hall as [H _]. exact H.
  - apply Forall_cons in Hall as [Hitem Hall].
    change (join ", " (item :: next :: rest))
      with (item +:+ String "," (String " " (join ", " (next :: rest)))).
    rewrite (split_app_sep _ _ _ Hitem).
    change (split "," (String " " (join ", " (next :: rest))))
      with (match split "," (join ", " (next :: rest)) with
            | piece :: more => String " " piece :: more
            | [] => [String " " EmptyString]
            end).
    rewrite (IH next Hall). reflexivity.
Qed.

(** X25.  [parseArray] reads back what [join(", ")] wrote: for items that are not
    empty, have no white space around them and hold no comma, parsing the
    joined string yields the items, in their order. *)
Theorem parseArray_reads_back_a_joined_list
    (items : list string) (defaultValue : list string) :
  Forall clean_item items →
  parseArray (AString (join ", " items)) defaultValue = items.
Proof.
  intros Hall. destruct items as [|item rest]; [reflexivity|].
  unfold parseArray. rewrite split_join.
  2:{ eapply Forall_impl; [exact Hall|]. intros e (_ & _ & H). exact H. }
  assert (trim <$> item :: (String " " <$> rest) = item :: rest) as ->.
  { apply Forall_cons in Hall as [(_ & Ht & _) Hrest]. cbn. rewrite Ht. f_equal.
    induction rest as [|e rest IH]; [reflexivity|].
    apply Forall_cons in Hrest as [(_ & He & _) Hrest]. cbn.
    rewrite (IH Hrest). f_equal. exact He. }
  induction (item :: rest) as [|e l IH]; [reflexivity|].
  apply Forall_cons in Hall as [(Hne & _) Hl].
  rewrite filter_cons_True by exact Hne. f_equal. exact (IH Hl).
Qed.

(** * Further statements at concrete inputs *)

Lemma registry_bounded_db_alice : registry_bounded db_alice.
Proof.
  intros i u H. unfold db_alice in H. apply lookup_singleton_Some in H as [_ <-]. cbn. lia.
Qed.

Lemma locks_counted_db_alice : locks_counted db_alice.
Proof.
  intros i u H. unfold db_alice in H. apply lookup_singleton_Some in H as [_ <-].
  intros [x Hx]. discriminate Hx.
Qed.

Lemma register_request_registrable :
  registrable toy_pattern db_alice register_request
    " Bob " "Bob@Example.com" "hunter2hunter2" 2%positive.
Proof.
  repeat split.
  intros j v H. unfold db_alice in H. apply lookup_singleton_Some in H as [_ <-].
  discriminate.
Qed.

(** The run [a_run] keeps the e-mail addresses of the collection distinct. *)
Lemma a_run_keeps_emails_unique :
  unique_email (serve toy_hash toy_compare toy_pattern cfg0 a_run db_alice).2.
Proof. apply serve_keeps_emails_unique. apply unique_email_singleton. Defined.

(** After [a_run], [alice] is still [alice]. *)
Lemma a_run_keeps_alice :
  ∃ u', (serve toy_hash toy_compare toy_pattern cfg0 a_run db_alice).2 !! 1%positive
        = Some u' ∧ same_identity alice u'.
Proof. apply serve_keeps_identity. reflexivity. Defined.

(** The account that [a_run] creates is an unverified, active plain user,
    whatever the registration body asked for. *)
Lemma a_run_creates_a_plain_user :
  ∃ u', (serve toy_hash toy_compare toy_pattern cfg0 a_run db_alice).2 !! 2%positive
        = Some u' ∧ role u' = "user" ∧ isActive u' = true ∧ isVerified u' = false.
Proof.
  destruct ((serve toy_hash toy_compare toy_pattern cfg0 a_run db_alice).2 !! 2%positive)
    as [u'|] eqn:E; [|vm_compute in E; discriminate E].
  exists u'. split; [reflexivity|].
  destruct (serve_creates_default_accounts toy_hash toy_compare toy_pattern cfg0
              a_run db_alice 2%positive u' eq_refl E) as (Hr & Ha & Hv & _).
  auto.
Defined.

Lemma a_run_keeps_registries_bounded :
  registry_bounded (serve toy_hash toy_compare toy_pattern cfg0 a_run db_alice).2.
Proof. apply serve_keeps_registries_bounded. exact registry_bounded_db_alice. Defined.

Lemma a_run_keeps_locks_counted :
  locks_counted (serve toy_hash toy_compare toy_pattern cfg0 a_run db_alice).2.
Proof. apply serve_keeps_locks_counted. exact locks_counted_db_alice. Defined.

Lemma good_request_addresses (u : User) :
  email u = "alice@example.com" → addresses u good_request.
Proof. intros H. split; [reflexivity|]. eexists. split; [reflexivity|]. rewrite H. reflexivity. Qed.

Lemma wrong_request_is_wrong_after_five :
  wrong_password_for toy_compare alice_after_five wrong_request.
Proof.
  split.
  - split; [reflexivity|]. eexists. split; reflexivity.
  - eexists. split; reflexivity.
Qed.

(** [alice] logs in with her password once the lock has run out. *)
Lemma alice_logs_in_after_the_lock :
  ∃ r db',
    login toy_compare cfg0 good_request 9000000 db_expired_lock = (r, db') ∧
    status r = 200 ∧
    data_accessToken r
    = Some (generateAccessToken cfg0 {| _id := 1%positive; fields := alice_after_five |}
              9000000).
Proof.
  destruct (login_accepts_right_password toy_compare cfg0 good_request 9000000
              db_expired_lock 1%positive alice_after_five "Secur3!pass")
    as (r & db' & u' & Hl & Hs & _ & Ha & _).
  - apply unique_email_singleton.
  - reflexivity.
  - apply good_request_addresses. reflexivity.
  - reflexivity.
  - reflexivity.
  - reflexivity.
  - reflexivity.
  - exists r, db'. auto.
Defined.

(** [mallory]'s account is deactivated: her login is refused with 403. *)
Lemma mallory_is_turned_away :
  login toy_compare cfg0 (login_request "Mallory@example.com" "Passw0rd!") 1000 db_mallory
  = (failure 403 "Account is deactivated", db_mallory).
Proof.
  apply (login_deactivated_account toy_compare cfg0 _ 1000 db_mallory 7%positive mallory).
  - apply unique_email_singleton.
  - reflexivity.
  - split; [reflexivity|]. eexists. split; reflexivity.
  - reflexivity.
  - reflexivity.
Defined.

(** A refresh without cookie is refused and leaves [db_session] as it is. *)
Lemma refused_refresh_writes_nothing :
  let c := CallRefreshToken (cookie_request None None) 2000 in
  (handle toy_hash toy_compare toy_pattern cfg0 c db_session).2 = db_session
  ∨ ∃ req now, c = CallLogin req now ∧
      (handle toy_hash toy_compare toy_pattern cfg0 c db_session).1 = invalid_credentials.
Proof.
  cbn zeta.
  apply (refused_calls_write_nothing toy_hash toy_compare toy_pattern cfg0).
  - destruct (handle _ _ _ _ _ _). reflexivity.
  - reflexivity.
Defined.

(** Refreshing [alice]'s session rewrites her registry and nothing else. *)
Lemma alice_refresh_rewrites_her_registry :
  let presented := cookie_request (Some alice_token) None in
  let db' := (refreshToken cfg0 presented 2500 db_session).2 in
  ∃ u', db' !! 1%positive = Some u' ∧ (length (refreshTokens u') ≤ 1)%nat ∧
        ∀ j, j ≠ 1%positive → db' !! j = db_session !! j.
Proof.
  cbn zeta. set (presented := cookie_request (Some alice_token) None).
  destruct (refresh_rewrites_one_registry cfg0 presented 2500 db_session
              (refreshToken cfg0 presented 2500 db_session).2
              (refreshToken cfg0 presented 2500 db_session).1)
    as (tok & p & u & u' & Hc & Hv & Hu & Hu' & _ & _ & _ & _ & Hlen & _ & Hframe).
  - destruct (refreshToken cfg0 presented 2500 db_session). reflexivity.
  - vm_compute. reflexivity.
  - injection Hc as <-. vm_compute in Hv. injection Hv as <-.
    vm_compute in Hu. injection Hu as <-.
    exists u'. split; [exact Hu'|]. split; [exact Hlen | exact Hframe].
Defined.

(** The access token of [alice] is refused at the refresh endpoint. *)
Lemma alice_access_token_is_no_refresh_token :
  refreshToken cfg0
    (cookie_request (Some (generateAccessToken cfg0 doc_alice 1000)) None) 2000 db_alice
  = (failure 401 "Invalid or expired refresh token", db_alice).
Proof.
  apply (access_token_is_no_refresh_token cfg0 doc_alice 1000).
  - intros H. discriminate H.
  - reflexivity.
Defined.

(** The token of [alice]'s login at time 1000 refreshes her session at time
    5000 and is refused seven days later. *)
Lemma alice_token_lives_seven_days :
  let presented := cookie_request (Some alice_token) None in
  let db' := (login toy_compare cfg0 good_request 1000 db_alice).2 in
  status (refreshToken cfg0 presented 5000 db').1 = 200 ∧
  refreshToken cfg0 presented 604801000 db'
  = (failure 401 "Invalid or expired refresh token", db').
Proof.
  cbn zeta. set (presented := cookie_request (Some alice_token) None).
  split.
  - apply (login_token_is_refreshable_until_exp toy_compare cfg0 good_request 1000
             db_alice 1%positive alice "Secur3!pass" presented 5000);
      [apply unique_email_singleton | reflexivity
      | apply good_request_addresses; reflexivity
      | reflexivity | reflexivity | reflexivity | reflexivity | reflexivity
      | vm_compute; reflexivity].
  - apply (login_token_is_refreshable_until_exp toy_compare cfg0 good_request 1000
             db_alice 1%positive alice "Secur3!pass" presented 604801000);
      [apply unique_email_singleton | reflexivity
      | apply good_request_addresses; reflexivity
      | reflexivity | reflexivity | reflexivity | reflexivity | reflexivity
      | vm_compute; intros H; discriminate H].
Defined.

(** [alice] logs out: her token leaves the registry and is refused. *)
Lemma alice_logout_revokes_her_token :
  ∃ db' u',
    logout (cookie_request (Some alice_token) (Some 1%positive)) db_session
    = (logout_ok, db') ∧
    db' !! 1%positive = Some u' ∧ (alice_token ∉ tokens (refreshTokens u')) ∧
    ∃ r', refreshToken cfg0 (cookie_request (Some alice_token) None) 3000 db' = (r', db')
          ∧ status r' = 401.
Proof.
  destruct (logout_revokes_the_presented_token cfg0
              (cookie_request (Some alice_token) (Some 1%positive)) db_session
              1%positive
              (set_refreshTokens
                 [{| token := alice_token; createdAt := 1000; expiresAt := 604801000 |}]
                 (set_lastLogin (Some 1000) (set_loginAttempts None alice)))
              alice_token)
    as (db' & u' & Hl & Hu' & _ & Hnot & _ & Href).
  - reflexivity.
  - reflexivity.
  - reflexivity.
  - reflexivity.
  - exists db', u'. split; [exact Hl|]. split; [exact Hu'|]. split; [exact Hnot|].
    exact (Href eq_refl (cookie_request (Some alice_token) None) 3000 eq_refl).
Defined.

(** A [logoutAll] of user 2 leaves the session of [alice] refreshable. *)
Lemma logoutAll_of_another_user_spares_alice :
  let presented := cookie_request (Some alice_token) None in
  (refreshToken cfg0 presented 2000
     (logoutAll (cookie_request None (Some 2%positive)) db_session).2).1
  = (refreshToken cfg0 presented 2000 db_session).1.
Proof.
  cbn zeta.
  apply (logoutAll_spares_other_users cfg0 _ db_session 2%positive _ 2000
           alice_token 1%positive).
  - reflexivity.
  - reflexivity.
  - reflexivity.
  - intros H. discriminate H.
Defined.

(** Bob registers beside [alice]. *)
Lemma bob_registers :
  ∃ r db' u,
    register toy_hash toy_pattern cfg0 register_request 5000 2%positive db_alice = (r, db') ∧
    status r = 201 ∧ db' !! 2%positive = Some u ∧
    fullName u = "Bob" ∧ email u = "bob@example.com" ∧
    db' !! 1%positive = Some alice.
Proof.
  destruct (register_creates_a_fresh_account toy_hash toy_pattern cfg0 register_request
              5000 2%positive db_alice " Bob " "Bob@Example.com" "hunter2hunter2"
              register_request_registrable)
    as (r & db' & u & tok & Hr & Hs & Hu & _ & _ & _ & _ & _ & Hfn & Hm & _ & Hframe).
  exists r, db', u. repeat split; try assumption.
  rewrite Hframe; [reflexivity | intros H; discriminate H].
Defined.

(** The address of [alice] is taken, in whatever case it is written. *)
Lemma alice_address_is_taken :
  register toy_hash toy_pattern cfg0 taken_request 5000 2%positive db_alice
  = (failure 409 "User already exists with this email", db_alice).
Proof.
  apply (register_refuses_a_taken_email toy_hash toy_pattern cfg0 taken_request 5000
           2%positive db_alice "ALICE@example.com" 1%positive alice);
    reflexivity.
Defined.

(** Bob cannot register twice. *)
Lemma bob_registers_once :
  let db' := (register toy_hash toy_pattern cfg0 register_request 5000 2%positive db_alice).2 in
  register toy_hash toy_pattern cfg0
    {| body := {| b_fullName := Some "Robert"; b_email := Some " BOB@example.com ";
                  b_password := Some "hunter3hunter3"; b_extra := ∅ |};
       cookies_refreshToken := None; req_user := None; validation_errors := [] |}
    6000 3%positive db'
  = (failure 409 "User already exists with this email", db').
Proof.
  cbn zeta.
  apply (registered_email_is_taken toy_hash toy_pattern cfg0 register_request 5000
           2%positive db_alice " Bob " "Bob@Example.com" "hunter2hunter2"
           {| body := {| b_fullName := Some "Robert"; b_email := Some " BOB@example.com ";
                         b_password := Some "hunter3hunter3"; b_extra := ∅ |};
              cookies_refreshToken := None; req_user := None; validation_errors := [] |}
           6000 3%positive " BOB@example.com ").
  - exact register_request_registrable.
  - reflexivity.
  - reflexivity.
  - reflexivity.
Defined.

(** Bob logs in with the password he registered with. *)
Lemma bob_registers_then_logs_in :
  status (login toy_compare cfg0 (login_request "BOB@example.com" "hunter2hunter2") 6000
            (register toy_hash toy_pattern cfg0 register_request 5000 2%positive
               db_alice).2).1
  = 200.
Proof.
  apply (register_then_login toy_hash toy_compare toy_pattern cfg0 register_request 5000
           2%positive db_alice " Bob " "Bob@Example.com" "hunter2hunter2"
           (login_request "BOB@example.com" "hunter2hunter2") 6000 "BOB@example.com").
  - apply unique_email_singleton.
  - exact register_request_registrable.
  - intros rounds. reflexivity.
  - reflexivity.
  - reflexivity.
  - reflexivity.
  - reflexivity.
Defined.

(** Five wrong passwords after the lock of [alice_after_five] has run out lock
    the account again, two hours after the fifth. *)
Lemma alice_is_locked_again_after_five_more :
  ∃ db5 u5,
    logins toy_compare cfg0
      [(wrong_request, 7300000); (wrong_request, 7300001); (wrong_request, 7300002);
       (wrong_request, 7300003); (wrong_request, 7400000)] db_expired_lock
    = (replicate 5 invalid_credentials, db5) ∧
    db5 !! 1%positive = Some u5 ∧ attempts u5 = 5 ∧ lockUntil u5 = Some 14600000.
Proof.
  destruct (expired_lock_restarts_the_count toy_compare cfg0 db_expired_lock 1%positive
              alice_after_five 7200000 wrong_request 7300000
              [(wrong_request, 7300001); (wrong_request, 7300002);
               (wrong_request, 7300003)] wrong_request 7400000)
    as (_ & _ & db5 & u5 & Hl & Hu & Ha & Hk).
  - apply unique_email_singleton.
  - reflexivity.
  - reflexivity.
  - reflexivity.
  - reflexivity.
  - reflexivity.
  - repeat (apply List.Forall_cons; [exact wrong_request_is_wrong_after_five|]).
    apply List.Forall_nil.
  - exists db5, u5. auto.
Defined.

(** The token of [alice] outlives a cleanup five days after it was stored
    and not one nine days after. *)
Lemma alice_token_outlives_five_days_not_nine :
  let added := (addRefreshToken doc_alice alice_token 1000 db_alice).1 in
  (alice_token
   ∈ tokens (refreshTokens (fields (cleanupExpiredTokens added 432001000 db_alice).1))) ∧
  (alice_token
   ∉ tokens (refreshTokens (fields (cleanupExpiredTokens added 777601000 db_alice).1))).
Proof.
  cbn zeta. split.
  - apply (added_token_outlives_six_days_not_eight doc_alice alice_token 1000
             432001000 db_alice db_alice); [|lia].
    intros H. vm_compute in H. inversion H.
  - apply (added_token_outlives_six_days_not_eight doc_alice alice_token 1000
             777601000 db_alice db_alice); [|lia].
    intros H. vm_compute in H. inversion H.
Defined.

(** The origins read from a padded list with an empty item. *)
Lemma cors_origins_are_clean :
  clean_item "http://localhost:3000".
Proof.
  apply (parseArray_yields_clean_items
           " http://localhost:3000 , ,https://app.example.com" []).
  vm_compute. apply list_elem_of_here.
Defined.

(** Two origins written out and read back. *)
Lemma cors_origins_read_back :
  parseArray (AString (join ", " ["http://localhost:3000"; "https://app.example.com"])) []
  = ["http://localhost:3000"; "https://app.example.com"].
Proof.
  apply parseArray_reads_back_a_joined_list.
  repeat (apply List.Forall_cons;
            [split; [intros H; discriminate H | split; reflexivity]|]).
  apply List.Forall_nil.
Defined.
